(** * ssh_utils: the SSH connection handle of proxmox-vm-autoscale

    A shallow embedding of [src/ssh_utils.py].  The wrapper class
    [SSHClient] owns at most one session object of the SSH library and
    offers [connect], [execute_command], [close] and [is_connected].

    The SSH library and the remote host are outside the program.  They are
    modelled as a [World]: a deterministic oracle that answers each library
    call from the history of everything that happened so far.  Every theorem
    quantifies over the world unless it names a concrete one. *)

From Stdlib Require Import List String Ascii ZArith NArith Bool Lia.
From Stdlib Require Import Strings.Byte.
From Stdlib Require Import DecimalString.
Import ListNotations.

Local Open Scope string_scope.
Local Open Scope list_scope.

(** ** Python values *)

(** The exception classes that matter to the handlers of the module.
    [AuthenticationException] is a subclass of [SSHException]; every class
    here is a subclass of [Exception]. *)
Inductive exn_class : Type :=
| AuthenticationException
| SSHException
| ValueError
| UnicodeDecodeError
| AttributeError
| OtherException (name : string).

(** An exception object: its class and the text of [str(e)]. *)
Record exn : Type := mkExn { exn_cls : exn_class; exn_str : string }.

Definition isinstance_AuthenticationException (e : exn) : bool :=
  match exn_cls e with
  | AuthenticationException => true
  | _ => false
  end.

Definition isinstance_SSHException (e : exn) : bool :=
  match exn_cls e with
  | AuthenticationException | SSHException => true
  | _ => false
  end.

(** The values an [a and b and c] chain over the session can produce:
    a boolean, or the [None] that [get_transport()] returned. *)
Inductive pyval : Type :=
| PyBool (b : bool)
| PyNone.

Definition truthy (v : pyval) : bool :=
  match v with
  | PyBool b => b
  | PyNone => false
  end.

(** Truth value of an optional string: [None] and the empty string are
    false, every other string is true. *)
Definition truthy_str (o : option string) : bool :=
  match o with
  | None => false
  | Some s => negb (String.eqb s "")
  end.

(** Decimal rendering of an integer inside an f-string. *)
Definition str_of_Z (z : Z) : string := NilZero.string_of_int (Z.to_int z).

(** ** The library objects *)

(** [paramiko.Transport]: what the wrapper observes of it is [is_active()]. *)
Record Transport : Type := mkTransport { is_active : bool }.

(** [paramiko.SSHClient]: what the wrapper observes is [get_transport()],
    which is [None] until the library has created a transport. *)
Record Session : Type := mkSession { get_transport : option Transport }.

Definition RSAKey : Type := string.

Inductive HostKeyPolicy : Type := AutoAddPolicy | RejectPolicy | WarningPolicy.

(** Keyword arguments of the library's [connect]. *)
Record ConnectArgs : Type := mkConnectArgs {
  arg_hostname : string;
  arg_username : string;
  arg_password : option string;
  arg_pkey : option RSAKey;
  arg_port : Z;
  arg_timeout : Z
}.

Inductive level : Type := INFO | WARNING | ERROR.

(** Everything the wrapper does to the outside: log lines and library
    calls, in the order they happen. *)
Inductive Event : Type :=
| Log (lv : level) (msg : string)
| NewSession
| SetMissingHostKeyPolicy (p : HostKeyPolicy)
| FromPrivateKeyFile (path : option string)
| Connect (a : ConnectArgs)
| ExecCommand (command : string) (timeout : Z)
| CloseSession.

(** ** The world *)

Inductive KeyResult : Type :=
| KeyLoaded (k : RSAKey)
| KeyRaises (e : exn).

(** A failed library [connect] leaves the session with whatever transport
    it had got to: none when the socket never opened, a transport (possibly
    still active) when negotiation or authentication failed. *)
Inductive ConnectResult : Type :=
| Connected
| ConnectRaises (e : exn) (left_behind : option Transport).

(** [Completed out err status]: [exec_command] returned, the exit status
    arrived and both streams were read to their end. [ExecRaises e]: one of
    these four library calls raised. *)
Inductive ExecResult : Type :=
| Completed (out err : list byte) (exit_status : Z)
| ExecRaises (e : exn).

Inductive CloseResult : Type :=
| Closed
| CloseRaises (e : exn).

(** Each oracle receives the history up to and including the call it
    answers.  A transport changes only when the library connects; what the
    remote end does to it between two calls of the wrapper is not part of
    the model, whose statements start from an arbitrary state. *)
Record World : Type := mkWorld {
  from_private_key_file : list Event -> KeyResult;
  net_connect : list Event -> ConnectResult;
  exec_command : list Event -> ExecResult;
  net_close : list Event -> CloseResult
}.

(** ** The handle *)

(** The fields [__init__] sets; [self.logger] is the [Log] events. *)
Record SSHClient : Type := mkSSHClient {
  host : string;
  user : string;
  password : option string;
  key_path : option string;
  port : Z;
  client : option Session
}.

Definition __init__ (host user : string) (password key_path : option string)
  (port : Z) : SSHClient :=
  mkSSHClient host user password key_path port None.

Definition set_client (h : SSHClient) (c : option Session) : SSHClient :=
  mkSSHClient (host h) (user h) (password h) (key_path h) (port h) c.

Record State : Type := mkState { self : SSHClient; history : list Event }.

Definition fresh (h : SSHClient) : State := mkState h [].

(** ** Computations *)

(** A call returns, raises, or is cut off: [Unfinished] marks the point
    where the recursive calls nest deeper than the call was granted.  An
    interpreter grants a depth too, its recursion limit, and CPython raises
    [RecursionError] about there. *)
Inductive Result (A : Type) : Type :=
| Returns (a : A)
| Raises (e : exn)
| Unfinished.

Arguments Returns {A} a.
Arguments Raises {A} e.
Arguments Unfinished {A}.

Definition Py (A : Type) : Type := State -> Result A * State.

Definition ret {A : Type} (a : A) : Py A := fun s => (Returns a, s).

Definition raise {A : Type} (e : exn) : Py A := fun s => (Raises e, s).

Definition bind {A B : Type} (m : Py A) (k : A -> Py B) : Py B :=
  fun s =>
    match m s with
    | (Returns a, s') => k a s'
    | (Raises e, s') => (Raises e, s')
    | (Unfinished, s') => (Unfinished, s')
    end.

Notation "x <- m ;; k" := (bind m (fun x => k))
  (at level 61, m at next level, right associativity).
Notation "m ;; k" := (bind m (fun _ => k))
  (at level 61, right associativity).

(** [try: m  except Exception as e: handler e]. *)
Definition try_except {A : Type} (m : Py A) (handler : exn -> Py A) : Py A :=
  fun s =>
    match m s with
    | (Raises e, s') => handler e s'
    | r => r
    end.

(** [try: m  finally: f], for a [f] that cannot raise. *)
Definition try_finally {A : Type} (m : Py A) (f : State -> State) : Py A :=
  fun s => let (r, s') := m s in (r, f s').

Definition get_self : Py SSHClient := fun s => (Returns (self s), s).

Definition assign_client (c : option Session) : Py unit :=
  fun s => (Returns tt, mkState (set_client (self s) c) (history s)).

Definition emit (e : Event) : Py unit :=
  fun s => (Returns tt, mkState (self s) (history s ++ [e])).

Definition log (lv : level) (msg : string) : Py unit := emit (Log lv msg).

Definition ask {A : Type} (oracle : list Event -> A) : Py A :=
  fun s => (Returns (oracle (history s)), s).

(** ** Text: [bytes.decode('utf-8')] and [str.strip()] *)

(** A decoded string is its sequence of code points. *)
Definition text : Type := list N.

Definition between (lo hi : N) (b : byte) : bool :=
  (lo <=? Byte.to_N b)%N && (Byte.to_N b <=? hi)%N.

Definition continuation (b : byte) : bool := between 0x80 0xBF b.

Definition low6 (b : byte) : N := N.land (Byte.to_N b) 0x3F.

(** Range of the second byte of a three-byte sequence: no overlong forms
    after [E0], no surrogates after [ED]. *)
Definition second_of_three (b0 b1 : byte) : bool :=
  if (Byte.to_N b0 =? 0xE0)%N then between 0xA0 0xBF b1
  else if (Byte.to_N b0 =? 0xED)%N then between 0x80 0x9F b1
  else continuation b1.

(** Range of the second byte of a four-byte sequence: no overlong forms
    after [F0], nothing above U+10FFFF after [F4]. *)
Definition second_of_four (b0 b1 : byte) : bool :=
  if (Byte.to_N b0 =? 0xF0)%N then between 0x90 0xBF b1
  else if (Byte.to_N b0 =? 0xF4)%N then between 0x80 0x8F b1
  else continuation b1.

(** Strict UTF-8 decoding; [None] stands for [UnicodeDecodeError]. *)
Fixpoint decode_utf8 (bs : list byte) : option text :=
  match bs with
  | [] => Some []
  | b0 :: r0 =>
      if (Byte.to_N b0 <? 0x80)%N then
        option_map (cons (Byte.to_N b0)) (decode_utf8 r0)
      else if between 0xC2 0xDF b0 then
        match r0 with
        | b1 :: r1 =>
            if continuation b1 then
              option_map
                (cons (N.land (Byte.to_N b0) 0x1F * 64 + low6 b1)%N)
                (decode_utf8 r1)
            else None
        | _ => None
        end
      else if between 0xE0 0xEF b0 then
        match r0 with
        | b1 :: b2 :: r2 =>
            if second_of_three b0 b1 && continuation b2 then
              option_map
                (cons ((N.land (Byte.to_N b0) 0x0F * 64 + low6 b1) * 64
                       + low6 b2)%N)
                (decode_utf8 r2)
            else None
        | _ => None
        end
      else if between 0xF0 0xF4 b0 then
        match r0 with
        | b1 :: b2 :: b3 :: r3 =>
            if second_of_four b0 b1 && continuation b2 && continuation b3 then
              option_map
                (cons (((N.land (Byte.to_N b0) 0x07 * 64 + low6 b1) * 64
                        + low6 b2) * 64 + low6 b3)%N)
                (decode_utf8 r3)
            else None
        | _ => None
        end
      else None
  end.

(** What a [UnicodeDecodeError] of the decoder reports: the byte at which
    the faulty sequence starts, its position, the number of bytes the error
    covers and the reason. *)
Record Utf8Error : Type := mkUtf8Error {
  err_byte : byte;
  err_start : nat;
  err_length : nat;
  err_reason : string
}.

(** The first error of a byte string that does not decode, scanning from
    position [pos].  A sequence cut short by the end of the input is an
    unexpected end of data covering all that is left; a lead byte outside
    [C2..F4] is an invalid start byte; a second, third or fourth byte out
    of range is an invalid continuation byte, the error covering the bytes
    before it. *)
Fixpoint utf8_error (pos : nat) (bs : list byte) : option Utf8Error :=
  match bs with
  | [] => None
  | b0 :: r0 =>
      if (Byte.to_N b0 <? 0x80)%N then utf8_error (S pos) r0
      else if between 0xC2 0xDF b0 then
        match r0 with
        | [] => Some (mkUtf8Error b0 pos 1 "unexpected end of data")
        | b1 :: r1 =>
            if continuation b1 then utf8_error (pos + 2) r1
            else Some (mkUtf8Error b0 pos 1 "invalid continuation byte")
        end
      else if between 0xE0 0xEF b0 then
        match r0 with
        | [] => Some (mkUtf8Error b0 pos 1 "unexpected end of data")
        | b1 :: r1 =>
            if negb (second_of_three b0 b1) then
              Some (mkUtf8Error b0 pos 1 "invalid continuation byte")
            else
              match r1 with
              | [] => Some (mkUtf8Error b0 pos 2 "unexpected end of data")
              | b2 :: r2 =>
                  if continuation b2 then utf8_error (pos + 3) r2
                  else
                    Some (mkUtf8Error b0 pos 2 "invalid continuation byte")
              end
        end
      else if between 0xF0 0xF4 b0 then
        match r0 with
        | [] => Some (mkUtf8Error b0 pos 1 "unexpected end of data")
        | b1 :: r1 =>
            if negb (second_of_four b0 b1) then
              Some (mkUtf8Error b0 pos 1 "invalid continuation byte")
            else
              match r1 with
              | [] => Some (mkUtf8Error b0 pos 2 "unexpected end of data")
              | b2 :: r2 =>
                  if negb (continuation b2) then
                    Some (mkUtf8Error b0 pos 2 "invalid continuation byte")
                  else
                    match r2 with
                    | [] =>
                        Some (mkUtf8Error b0 pos 3 "unexpected end of data")
                    | b3 :: r3 =>
                        if continuation b3 then utf8_error (pos + 4) r3
                        else
                          Some (mkUtf8Error b0 pos 3
                                  "invalid continuation byte")
                    end
              end
        end
      else Some (mkUtf8Error b0 pos 1 "invalid start byte")
  end.

(** A byte as ["%02x"] prints it. *)
Definition hex_digit (n : N) : string :=
  String.substring (N.to_nat n) 1 "0123456789abcdef".

Definition hex2 (b : byte) : string :=
  hex_digit (Byte.to_N b / 16) ++ hex_digit (Byte.to_N b mod 16).

(** [str(e)] of the [UnicodeDecodeError] for the error [e]. *)
Definition utf8_error_text (e : Utf8Error) : string :=
  if Nat.eqb (err_length e) 1 then
    "'utf-8' codec can't decode byte 0x" ++ hex2 (err_byte e)
    ++ " in position " ++ str_of_Z (Z.of_nat (err_start e)) ++ ": "
    ++ err_reason e
  else
    "'utf-8' codec can't decode bytes in position "
    ++ str_of_Z (Z.of_nat (err_start e)) ++ "-"
    ++ str_of_Z (Z.of_nat (err_start e + err_length e - 1)) ++ ": "
    ++ err_reason e.

(** Unicode scalar values: up to U+10FFFF, surrogates excluded. *)
Definition scalar_value (c : N) : bool :=
  ((c <=? 0x10FFFF) && negb ((0xD800 <=? c) && (c <=? 0xDFFF)))%N.

(** The code points [str.strip()] removes when called without argument. *)
Definition isspace (c : N) : bool :=
  ((0x09 <=? c) && (c <=? 0x0D) || (0x1C <=? c) && (c <=? 0x20)
   || (c =? 0x85) || (c =? 0xA0) || (c =? 0x1680)
   || (0x2000 <=? c) && (c <=? 0x200A)
   || (c =? 0x2028) || (c =? 0x2029) || (c =? 0x202F) || (c =? 0x205F)
   || (c =? 0x3000))%N.

Fixpoint lstrip (t : text) : text :=
  match t with
  | [] => []
  | c :: r => if isspace c then lstrip r else t
  end.

Definition rstrip (t : text) : text := rev (lstrip (rev t)).

Definition strip (t : text) : text := rstrip (lstrip t).

(** The bytes and the code points of a string of the ASCII range, to write
    examples with. *)
Definition bytes_of (s : string) : list byte := list_byte_of_string s.

Definition text_of (s : string) : text := map Byte.to_N (list_byte_of_string s).

(** The value of [c.get_transport() and c.get_transport().is_active()]:
    [and] yields its first operand when that one is false, so a missing
    transport gives [None]; a transport object itself counts as true. *)
Definition transport_active (c : Session) : pyval :=
  match get_transport c with
  | None => PyNone
  | Some t => PyBool (is_active t)
  end.

(** The value of [self.client is not None and self.client.get_transport()
    and self.client.get_transport().is_active()]. *)
Definition connected_expr (h : SSHClient) : pyval :=
  match client h with
  | None => PyBool false
  | Some c => transport_active c
  end.

(** The value of [self.client is None or not (self.client.get_transport()
    and self.client.get_transport().is_active())]. *)
Definition disconnected_expr (h : SSHClient) : bool :=
  match client h with
  | None => true
  | Some c => negb (truthy (transport_active c))
  end.

(** ** The methods of [SSHClient] *)

Section Methods.

Variable w : World.

(** [self.client = paramiko.SSHClient()]: a session without transport. *)
Definition new_session : Py unit :=
  emit NewSession ;; assign_client (Some (mkSession None)).

Definition set_missing_host_key_policy (p : HostKeyPolicy) : Py unit :=
  emit (SetMissingHostKeyPolicy p).

(** [paramiko.RSAKey.from_private_key_file(path)]. *)
Definition RSAKey_from_private_key_file (path : option string) : Py RSAKey :=
  emit (FromPrivateKeyFile path) ;;
  r <- ask (from_private_key_file w) ;;
  match r with
  | KeyLoaded k => ret k
  | KeyRaises e => raise e
  end.

(** [self.client.connect(...)]: the library stores the transport in the
    session object, also when it raises. *)
Definition client_connect (a : ConnectArgs) : Py unit :=
  emit (Connect a) ;;
  r <- ask (net_connect w) ;;
  match r with
  | Connected => assign_client (Some (mkSession (Some (mkTransport true))))
  | ConnectRaises e t => assign_client (Some (mkSession t)) ;; raise e
  end.

Definition connect : Py unit :=
  h <- get_self ;;
  if truthy (connected_expr h) then
    log INFO ("Already connected to " ++ host h ++ ". Reusing the connection.")
  else
    try_except
      (new_session ;;
       set_missing_host_key_policy AutoAddPolicy ;;
       (if truthy_str (password h) then
          client_connect
            (mkConnectArgs (host h) (user h) (password h) None (port h) 10)
        else if truthy_str (key_path h) then
          private_key <- RSAKey_from_private_key_file (key_path h) ;;
          client_connect
            (mkConnectArgs (host h) (user h) None (Some private_key)
               (port h) 10)
        else
          raise (mkExn ValueError
            "Either password or key_path must be provided for SSH connection."))
       ;;
       log INFO ("Successfully connected to " ++ host h ++ " on port "
                 ++ str_of_Z (port h)))
      (fun e =>
         if isinstance_AuthenticationException e then
           log ERROR ("Authentication failed for " ++ host h
                      ++ ". Check credentials or key file.") ;;
           raise e
         else if isinstance_SSHException e then
           log ERROR ("SSH error while connecting to " ++ host h ++ ": "
                      ++ exn_str e) ;;
           raise e
         else
           log ERROR ("Unexpected error while connecting to " ++ host h
                      ++ ": " ++ exn_str e) ;;
           raise e).

(** [self.client.close()]. *)
Definition client_close : Py unit :=
  emit CloseSession ;;
  r <- ask (net_close w) ;;
  match r with
  | Closed => ret tt
  | CloseRaises e => raise e
  end.

Definition close : Py unit :=
  h <- get_self ;;
  match client h with
  | Some _ =>
      try_finally
        (try_except
           (client_close ;;
            log INFO ("SSH connection closed for " ++ host h))
           (fun e =>
              log ERROR ("Error while closing SSH connection to " ++ host h
                         ++ ": " ++ exn_str e)))
        (fun s => mkState (set_client (self s) None) (history s))
  | None => ret tt
  end.

(** [self.client.exec_command(command, timeout=timeout)], the wait for
    the exit status and the two [read()] calls.  On a handle without
    session object the attribute lookup itself fails. *)
Definition client_exec_command (command : string) (timeout : Z)
  : Py (list byte * list byte * Z) :=
  h <- get_self ;;
  match client h with
  | None =>
      raise (mkExn AttributeError
               "'NoneType' object has no attribute 'exec_command'")
  | Some _ =>
      emit (ExecCommand command timeout) ;;
      r <- ask (exec_command w) ;;
      match r with
      | Completed out err exit_status => ret (out, err, exit_status)
      | ExecRaises e => raise e
      end
  end.

(** The [UnicodeDecodeError] that [.decode('utf-8')] raises on [bs]. *)
Definition decode_error (bs : list byte) : exn :=
  mkExn UnicodeDecodeError
    match utf8_error 0 bs with
    | Some e => utf8_error_text e
    | None => ""
    end.

Definition decode (bs : list byte) : Py text :=
  match decode_utf8 bs with
  | Some t => ret t
  | None => raise (decode_error bs)
  end.

(** The body of the [try] of [execute_command]. *)
Definition run_command (h : SSHClient) (command : string) (timeout : Z)
  : Py (text * text * Z) :=
  r <- client_exec_command command timeout ;;
  let '(out, err, exit_status) := r in
  output <- (t <- decode out ;; ret (strip t)) ;;
  error <- (t <- decode err ;; ret (strip t)) ;;
  if (exit_status =? 0)%Z then
    log INFO ("Command executed successfully on " ++ host h ++ ": "
              ++ command) ;;
    ret (output, error, exit_status)
  else
    log WARNING ("Command execution failed on " ++ host h
                 ++ " with exit status " ++ str_of_Z exit_status) ;;
    ret (output, error, exit_status).

(** [depth] is the nesting of recursive calls granted to the call; the
    function itself counts nothing. *)
Fixpoint execute_command (depth : nat) (command : string) (timeout : Z)
  : Py (text * text * Z) :=
  match depth with
  | O => fun s => (Unfinished, s)
  | S depth' =>
      h <- get_self ;;
      (if disconnected_expr h then connect else ret tt) ;;
      try_except
        (run_command h command timeout)
        (fun e =>
           if isinstance_SSHException e then
             log ERROR ("SSH error while executing command on " ++ host h
                        ++ ": " ++ exn_str e) ;;
             raise e
           else
             log ERROR ("Error executing command on " ++ host h ++ ": "
                        ++ exn_str e) ;;
             close ;;
             connect ;;
             execute_command depth' command timeout)
  end.

Definition default_timeout : Z := 30.

Definition __enter__ : Py SSHClient := connect ;; get_self.

Definition __exit__ : Py unit := close.

Definition is_connected (h : SSHClient) : pyval := connected_expr h.

End Methods.


(** ** Vocabulary of the statements *)

(** The line the three [except] clauses of [connect] log for [e]. *)
Definition connect_error_line (h : SSHClient) (e : exn) : string :=
  if isinstance_AuthenticationException e then
    "Authentication failed for " ++ host h
    ++ ". Check credentials or key file."
  else if isinstance_SSHException e then
    "SSH error while connecting to " ++ host h ++ ": " ++ exn_str e
  else
    "Unexpected error while connecting to " ++ host h ++ ": " ++ exn_str e.

(** What [connect] passes to the library on its two branches. *)
Definition password_args (h : SSHClient) : ConnectArgs :=
  mkConnectArgs (host h) (user h) (password h) None (port h) 10.

Definition pkey_args (h : SSHClient) (k : RSAKey) : ConnectArgs :=
  mkConnectArgs (host h) (user h) None (Some k) (port h) 10.

Definition no_credentials : exn :=
  mkExn ValueError
    "Either password or key_path must be provided for SSH connection.".

(** The calls every new connection starts with. *)
Definition opening : list Event :=
  [NewSession; SetMissingHostKeyPolicy AutoAddPolicy].

Definition connected_line (h : SSHClient) : Event :=
  Log INFO ("Successfully connected to " ++ host h ++ " on port "
            ++ str_of_Z (port h)).

Definition reuse_line (h : SSHClient) : Event :=
  Log INFO ("Already connected to " ++ host h ++ ". Reusing the connection.").

(** The line [close] logs after the library's [close] answered [r]. *)
Definition close_line (h : SSHClient) (r : CloseResult) : Event :=
  match r with
  | Closed => Log INFO ("SSH connection closed for " ++ host h)
  | CloseRaises e =>
      Log ERROR ("Error while closing SSH connection to " ++ host h ++ ": "
                 ++ exn_str e)
  end.

(** The line [execute_command] logs for a command that completed. *)
Definition command_line (h : SSHClient) (command : string) (exit_status : Z)
  : Event :=
  if (exit_status =? 0)%Z then
    Log INFO ("Command executed successfully on " ++ host h ++ ": "
              ++ command)
  else
    Log WARNING ("Command execution failed on " ++ host h
                 ++ " with exit status " ++ str_of_Z exit_status).

(** The lines of the two [except] clauses of [execute_command]. *)
Definition ssh_error_line (h : SSHClient) (e : exn) : Event :=
  Log ERROR ("SSH error while executing command on " ++ host h ++ ": "
             ++ exn_str e).

Definition retry_line (h : SSHClient) (e : exn) : Event :=
  Log ERROR ("Error executing command on " ++ host h ++ ": " ++ exn_str e).

(** The session object a successful library [connect] leaves. *)
Definition live_session : Session := mkSession (Some (mkTransport true)).

(** The implicit connect at the head of [execute_command]. *)
Definition ensure_connected (w : World) : Py unit :=
  fun s => (if disconnected_expr (self s) then connect w else ret tt) s.

(** Number of command executions, and of library connects, in a history. *)
Fixpoint count_exec (evs : list Event) : nat :=
  match evs with
  | [] => 0
  | ExecCommand _ _ :: rest => S (count_exec rest)
  | _ :: rest => count_exec rest
  end.

Fixpoint count_connect (evs : list Event) : nat :=
  match evs with
  | [] => 0
  | Connect _ :: rest => S (count_connect rest)
  | _ :: rest => count_connect rest
  end.

Definition is_key_load (ev : Event) : bool :=
  match ev with
  | FromPrivateKeyFile _ => true
  | _ => false
  end.

(** States a handle can be in: built by [__init__], then driven through
    its methods. *)
Inductive reachable (w : World) : State -> Prop :=
| reach_init : forall host user password key_path port,
    reachable w (fresh (__init__ host user password key_path port))
| reach_connect : forall s,
    reachable w s -> reachable w (snd (connect w s))
| reach_execute_command : forall s depth command timeout,
    reachable w s ->
    reachable w (snd (execute_command w depth command timeout s))
| reach_close : forall s,
    reachable w s -> reachable w (snd (close w s))
| reach_enter : forall s,
    reachable w s -> reachable w (snd (__enter__ w s))
| reach_exit : forall s,
    reachable w s -> reachable w (snd (__exit__ w s)).

(** [m] keeps the property [P] of states, however it ends. *)
Definition preserves {A : Type} (P : State -> Prop) (m : Py A) : Prop :=
  forall s, P s -> P (snd (m s)).

(** A property of the handle alone, read on a state. *)
Definition on_handle (Q : SSHClient -> Prop) : State -> Prop :=
  fun s => Q (self s).

(** Without a credential there can be no active session. *)
Definition credentials_behind_session (h : SSHClient) : Prop :=
  truthy_str (password h) = false ->
  truthy_str (key_path h) = false ->
  truthy (connected_expr h) = false.

(** Worlds in which the library always connects, and worlds in which no
    command attempt gets past the [try] other than by an exception that is
    not a protocol error. *)
Definition always_connects (w : World) : Prop :=
  forall tr, net_connect w tr = Connected.

Definition always_fails_softly (w : World) : Prop :=
  forall tr,
    match exec_command w tr with
    | Completed out _ _ => decode_utf8 out = None
    | ExecRaises e => isinstance_SSHException e = false
    end.

(** ** Worlds and handles of the examples *)

Definition timed_out : exn :=
  mkExn (OtherException "socket.timeout") "timed out".

Definition bad_password : exn :=
  mkExn AuthenticationException "Authentication failed.".

(** Every connection succeeds and every command prints [ok]. *)
Definition w_ok : World :=
  mkWorld (fun _ => KeyLoaded "key")
          (fun _ => Connected)
          (fun _ => Completed (bytes_of "ok" ++ [x0a]) [] 0)
          (fun _ => Closed).

(** Every command exits with status 7 and prints nothing. *)
Definition w_exit7 : World :=
  mkWorld (fun _ => KeyLoaded "key")
          (fun _ => Connected)
          (fun _ => Completed [] [] 7)
          (fun _ => Closed).

(** The first [n] command attempts time out, the later ones succeed. *)
Definition w_flaky (n : nat) : World :=
  mkWorld (fun _ => KeyLoaded "key")
          (fun _ => Connected)
          (fun tr => if (count_exec tr <=? n)%nat then ExecRaises timed_out
                     else Completed (bytes_of "ok" ++ [x0a]) [] 0)
          (fun _ => Closed).

(** Every command attempt times out. *)
Definition w_down : World :=
  mkWorld (fun _ => KeyLoaded "key")
          (fun _ => Connected)
          (fun _ => ExecRaises timed_out)
          (fun _ => Closed).

(** The channel breaks at protocol level on every command. *)
Definition w_broken_channel : World :=
  mkWorld (fun _ => KeyLoaded "key")
          (fun _ => Connected)
          (fun _ => ExecRaises (mkExn SSHException "Channel closed."))
          (fun _ => Closed).

(** The command prints the single byte [0xFF], which is not UTF-8. *)
Definition w_binary : World :=
  mkWorld (fun _ => KeyLoaded "key")
          (fun _ => Connected)
          (fun _ => Completed [xff] [] 0)
          (fun _ => Closed).

(** The server rejects the password and the library leaves no transport. *)
Definition w_rejects : World :=
  mkWorld (fun _ => KeyLoaded "key")
          (fun _ => ConnectRaises bad_password None)
          (fun _ => Completed [] [] 0)
          (fun _ => CloseRaises timed_out).

(** The server rejects the password and the library keeps the transport
    it had negotiated. *)
Definition w_rejects_keeps_transport : World :=
  mkWorld (fun _ => KeyLoaded "key")
          (fun _ => ConnectRaises bad_password (Some (mkTransport true)))
          (fun _ => Completed [] [] 0)
          (fun _ => Closed).

(** The world [w] with another key-file oracle. *)
Definition with_key_files (w : World) (files : list Event -> KeyResult)
  : World :=
  mkWorld files (net_connect w) (exec_command w) (net_close w).

Definition h_password : SSHClient := __init__ "h" "u" (Some "p") None 22.

Definition h_key : SSHClient :=
  __init__ "h" "u" None (Some "/root/.ssh/id_rsa") 22.

Definition h_both : SSHClient :=
  __init__ "h" "u" (Some "p") (Some "/root/.ssh/id_rsa") 22.

Definition h_neither : SSHClient := __init__ "h" "u" None None 22.

(** ** Vocabulary of the further properties *)

(** The configuration of a handle: all its fields but [client]. *)
Definition config (h : SSHClient) : SSHClient := set_client h None.

Definition set_password (h : SSHClient) (p : option string) : SSHClient :=
  mkSSHClient (host h) (user h) p (key_path h) (port h) (client h).

Definition set_key_path (h : SSHClient) (k : option string) : SSHClient :=
  mkSSHClient (host h) (user h) (password h) k (port h) (client h).

Fixpoint count_close (evs : list Event) : nat :=
  match evs with
  | [] => 0
  | CloseSession :: rest => S (count_close rest)
  | _ :: rest => count_close rest
  end.

(** The arguments [connect] may hand to the library for the handle [h]:
    its host, user and port, a timeout of 10 and one credential, the
    password when it is true and otherwise a key. *)
Definition connect_args_of (h : SSHClient) (a : ConnectArgs) : Prop :=
  arg_hostname a = host h
  /\ arg_username a = user h
  /\ arg_port a = port h
  /\ arg_timeout a = 10%Z
  /\ ((truthy_str (password h) = true
       /\ arg_password a = password h /\ arg_pkey a = None)
      \/ (truthy_str (password h) = false
          /\ truthy_str (key_path h) = true
          /\ arg_password a = None /\ exists k, arg_pkey a = Some k)).

(** The events a [connect] on the handle [h] may produce. *)
Definition connect_event (h : SSHClient) (ev : Event) : Prop :=
  match ev with
  | Log _ _ => True
  | NewSession => True
  | SetMissingHostKeyPolicy p => p = AutoAddPolicy
  | FromPrivateKeyFile path =>
      path = key_path h
      /\ truthy_str (password h) = false
      /\ truthy_str (key_path h) = true
  | Connect a => connect_args_of h a
  | ExecCommand _ _ => False
  | CloseSession => False
  end.

(** The events [execute_command command timeout] may produce on [h]. *)
Definition call_event (h : SSHClient) (command : string) (timeout : Z)
  (ev : Event) : Prop :=
  match ev with
  | ExecCommand c t => c = command /\ t = timeout
  | CloseSession => True
  | _ => connect_event h ev
  end.

(** [m], run on a handle configured like [h0], keeps that configuration
    and adds to the history only events that satisfy [Q]. *)
Definition appends {A : Type} (h0 : SSHClient) (Q : Event -> Prop)
  (m : Py A) : Prop :=
  forall s,
    config (self s) = config h0 ->
    config (self (snd (m s))) = config h0
    /\ exists evs,
         history (snd (m s)) = history s ++ evs /\ Forall Q evs.

(** A text that neither starts nor ends with white space. *)
Definition no_surrounding_space (t : text) : Prop :=
  (forall c, hd_error t = Some c -> isspace c = false)
  /\ (forall c, hd_error (rev t) = Some c -> isspace c = false).

(** What Python runs for [with handle: body]: [__enter__], then the body,
    then [__exit__] whether the body returned or raised; [__exit__] returns
    [None], so an exception of the body is raised again after it.  When
    [__enter__] raises, neither the body nor [__exit__] is run. *)
Definition with_statement {A : Type} (w : World) (body : Py A) : Py A :=
  __enter__ w ;;
  fun s =>
    match body s with
    | (Returns a, s') => (__exit__ w ;; ret a) s'
    | (Raises e, s') => (__exit__ w ;; raise e) s'
    | (Unfinished, s') => (Unfinished, s')
    end.

(** The first connection succeeds; every command times out and no later
    connection gets through. *)
Definition unreachable : exn :=
  mkExn (OtherException "OSError") "[Errno 101] Network is unreachable".

Definition w_drops : World :=
  mkWorld (fun _ => KeyLoaded "key")
          (fun tr => if (count_exec tr =? 0)%nat then Connected
                     else ConnectRaises unreachable None)
          (fun _ => ExecRaises timed_out)
          (fun _ => Closed).

(** The key file does not exist. *)
Definition no_such_file : exn :=
  mkExn (OtherException "FileNotFoundError")
    "[Errno 2] No such file or directory: '/root/.ssh/id_rsa'".

Definition w_no_key : World :=
  mkWorld (fun _ => KeyRaises no_such_file)
          (fun _ => Connected)
          (fun _ => Completed [] [] 0)
          (fun _ => Closed).

Definition is_ascii (b : byte) : bool := (Byte.to_N b <? 0x80)%N.

(** The state [w_flaky 2] leaves after a call that needed two retries. *)
Definition after_two_retries : State :=
  Eval vm_compute in
    snd (execute_command (w_flaky 2) 3 "uptime" 30 (fresh h_password)).

(** The state [w_drops] leaves when the reconnect after the first failed
    attempt does not get through. *)
Definition after_failed_reconnect : State :=
  Eval vm_compute in
    snd (execute_command w_drops 2 "uptime" 30 (fresh h_password)).

(** Handles whose credentials are empty strings. *)
Definition h_empty_password : SSHClient :=
  __init__ "h" "u" (Some "") (Some "/root/.ssh/id_rsa") 22.

Definition h_empty_both : SSHClient := __init__ "h" "u" (Some "") (Some "") 22.

(** The state in which the recovery path of [execute_command] calls
    [connect] again.  The attempt [command], made on the state [s1] of a
    handle [h] that holds a session, has raised [e]: the command and the
    error line are in the history, the library has been asked to close
    the session and the outcome has been logged, and the session handle is
    cleared. *)
Definition after_recovery_close (w : World) (h : SSHClient) (s1 : State)
  (command : string) (timeout : Z) (e : exn) : State :=
  mkState (set_client (self s1) None)
    (history s1
     ++ [ExecCommand command timeout;
         Log ERROR ("Error executing command on " ++ host h ++ ": "
                    ++ exn_str e);
         CloseSession;
         close_line h
           (net_close w
              (history s1
               ++ [ExecCommand command timeout;
                   Log ERROR ("Error executing command on " ++ host h
                              ++ ": " ++ exn_str e);
                   CloseSession]))]).

(** * Properties *)

(** ** Decoding and stripping *)

Lemma between_spec (lo hi : N) (b : byte) :
  between lo hi b = true <-> (lo <= Byte.to_N b <= hi)%N.
Proof.
  unfold between. rewrite andb_true_iff, !N.leb_le. reflexivity.
Qed.

Lemma to_N_bound (b : byte) : (Byte.to_N b < 256)%N.
Proof. destruct b; reflexivity. Qed.

Lemma low6_continuation (b : byte) :
  continuation b = true -> (low6 b = Byte.to_N b - 128)%N.
Proof. destruct b; simpl; try discriminate; reflexivity. Qed.

Lemma lead_bits_2 (b : byte) :
  between 0xC2 0xDF b = true ->
  (N.land (Byte.to_N b) 0x1F = Byte.to_N b - 0xC0)%N.
Proof. destruct b; simpl; try discriminate; reflexivity. Qed.

Lemma lead_bits_3 (b : byte) :
  between 0xE0 0xEF b = true ->
  (N.land (Byte.to_N b) 0x0F = Byte.to_N b - 0xE0)%N.
Proof. destruct b; simpl; try discriminate; reflexivity. Qed.

Lemma lead_bits_4 (b : byte) :
  between 0xF0 0xF4 b = true ->
  (N.land (Byte.to_N b) 0x07 = Byte.to_N b - 0xF0)%N.
Proof. destruct b; simpl; try discriminate; reflexivity. Qed.

(** Bytes of the ASCII range decode to themselves. *)
Lemma decode_utf8_ascii (bs : list byte) :
  forallb (fun b => (Byte.to_N b <? 0x80)%N) bs = true ->
  decode_utf8 bs = Some (map Byte.to_N bs).
Proof.
  induction bs as [|b bs IH]; [reflexivity|].
  simpl forallb. rewrite andb_true_iff. intros [Hb Hbs].
  cbn [decode_utf8 map]. rewrite Hb, (IH Hbs). reflexivity.
Qed.

Lemma option_map_cons_some (c : N) (r : option text) (t : text) :
  option_map (cons c) r = Some t ->
  exists t', r = Some t' /\ t = c :: t'.
Proof.
  destruct r as [t'|]; simpl; [|discriminate].
  intros [= <-]. eauto.
Qed.

(** Every code point that comes out of the decoder is a Unicode scalar
    value: at most U+10FFFF and not a surrogate. *)
Lemma decode_utf8_scalar_values :
  forall (n : nat) (bs : list byte) (t : text),
    List.length bs <= n ->
    decode_utf8 bs = Some t ->
    forallb scalar_value t = true.
Proof.
  induction n as [|n IH]; intros bs t Hlen.
  - destruct bs; [|simpl in Hlen; lia]. intros [= <-]. reflexivity.
  - destruct bs as [|b0 r0]; [intros [= <-]; reflexivity|].
    cbn [decode_utf8]. simpl in Hlen.
    destruct (Byte.to_N b0 <? 0x80)%N eqn:H1.
    { intros Hd. apply option_map_cons_some in Hd as (t' & Hd & ->).
      simpl. rewrite (IH r0 t' ltac:(lia) Hd), andb_true_r.
      apply N.ltb_lt in H1. unfold scalar_value.
      apply andb_true_iff; split; [apply N.leb_le; lia|].
      apply negb_true_iff, andb_false_iff. left. apply N.leb_gt. lia. }
    destruct (between 0xC2 0xDF b0) eqn:H2.
    { destruct r0 as [|b1 r1]; [discriminate|].
      destruct (continuation b1) eqn:Hc1; [|discriminate].
      intros Hd. apply option_map_cons_some in Hd as (t' & Hd & ->).
      simpl in Hlen. simpl.
      rewrite (IH r1 t' ltac:(lia) Hd), andb_true_r.
      rewrite (lead_bits_2 _ H2), (low6_continuation _ Hc1).
      apply between_spec in H2, Hc1. unfold scalar_value.
      apply andb_true_iff; split; [apply N.leb_le; lia|].
      apply negb_true_iff, andb_false_iff. left. apply N.leb_gt. lia. }
    destruct (between 0xE0 0xEF b0) eqn:H3.
    { destruct r0 as [|b1 [|b2 r2]]; try discriminate.
      destruct (second_of_three b0 b1) eqn:Hs; [|discriminate].
      destruct (continuation b2) eqn:Hc2; [|discriminate].
      simpl andb. cbv iota.
      intros Hd. apply option_map_cons_some in Hd as (t' & Hd & ->).
      simpl in Hlen. simpl.
      rewrite (IH r2 t' ltac:(lia) Hd), andb_true_r.
      rewrite (lead_bits_3 _ H3), (low6_continuation _ Hc2).
      apply between_spec in H3, Hc2. unfold scalar_value.
      unfold second_of_three in Hs.
      destruct (Byte.to_N b0 =? 0xE0)%N eqn:E0;
        [|destruct (Byte.to_N b0 =? 0xED)%N eqn:ED].
      - apply N.eqb_eq in E0.
        assert (Hc1 : continuation b1 = true).
        { apply between_spec in Hs. apply between_spec. lia. }
        rewrite (low6_continuation _ Hc1). apply between_spec in Hs.
        apply andb_true_iff; split; [apply N.leb_le; lia|].
        apply negb_true_iff, andb_false_iff. left. apply N.leb_gt. lia.
      - apply N.eqb_eq in ED.
        assert (Hc1 : continuation b1 = true).
        { apply between_spec in Hs. apply between_spec. lia. }
        rewrite (low6_continuation _ Hc1). apply between_spec in Hs.
        apply andb_true_iff; split; [apply N.leb_le; lia|].
        apply negb_true_iff, andb_false_iff. left. apply N.leb_gt. lia.
      - apply N.eqb_neq in E0, ED.
        rewrite (low6_continuation _ Hs). apply between_spec in Hs.
        apply andb_true_iff; split; [apply N.leb_le; lia|].
        apply negb_true_iff, andb_false_iff.
        destruct (N.le_gt_cases (Byte.to_N b0) 0xEC).
        + left. apply N.leb_gt. lia.
        + right. apply N.leb_gt. lia. }
    destruct (between 0xF0 0xF4 b0) eqn:H4; [|discriminate].
    destruct r0 as [|b1 [|b2 [|b3 r3]]]; try discriminate.
    destruct (second_of_four b0 b1) eqn:Hs; [|discriminate].
    destruct (continuation b2) eqn:Hc2; [|discriminate].
    destruct (continuation b3) eqn:Hc3; [|discriminate].
    simpl andb. cbv iota.
    intros Hd. apply option_map_cons_some in Hd as (t' & Hd & ->).
    simpl in Hlen. simpl.
    rewrite (IH r3 t' ltac:(lia) Hd), andb_true_r.
    rewrite (lead_bits_4 _ H4), (low6_continuation _ Hc2),
      (low6_continuation _ Hc3).
    apply between_spec in H4, Hc2, Hc3. unfold scalar_value.
    unfold second_of_four in Hs.
    assert (Hc1 : continuation b1 = true).
    { destruct (Byte.to_N b0 =? 0xF0)%N;
        [|destruct (Byte.to_N b0 =? 0xF4)%N]; try exact Hs;
        apply between_spec in Hs; apply between_spec; lia. }
    rewrite (low6_continuation _ Hc1).
    assert (Hb1 : (Byte.to_N b0 = 0xF4 -> Byte.to_N b1 <= 0x8F)%N).
    { intros E. rewrite E in Hs. simpl in Hs. apply between_spec in Hs. lia. }
    apply between_spec in Hc1.
    apply andb_true_iff; split.
    + apply N.leb_le.
      destruct (N.eq_dec (Byte.to_N b0) 0xF4) as [E|E];
        [specialize (Hb1 E)|]; lia.
    + apply negb_true_iff, andb_false_iff. right. apply N.leb_gt.
      assert (Hlo : (Byte.to_N b0 = 0xF0 -> 0x90 <= Byte.to_N b1)%N).
      { intros E. rewrite E in Hs. simpl in Hs. apply between_spec in Hs. lia. }
      destruct (N.eq_dec (Byte.to_N b0) 0xF0) as [E|E];
        [specialize (Hlo E)|]; lia.
Qed.

Lemma decode_utf8_scalar (bs : list byte) (t : text) :
  decode_utf8 bs = Some t -> forallb scalar_value t = true.
Proof. apply (decode_utf8_scalar_values (List.length bs)). lia. Qed.

(** [lstrip] removes a prefix of white space, and all of it. *)
Lemma lstrip_spec (t : text) :
  exists l,
    t = l ++ lstrip t
    /\ forallb isspace l = true
    /\ (forall c, hd_error (lstrip t) = Some c -> isspace c = false).
Proof.
  induction t as [|c t (l & Ht & Hl & Hh)].
  - exists []. repeat split. discriminate.
  - simpl. destruct (isspace c) eqn:Hc.
    + exists (c :: l). simpl. rewrite Hc, Hl. repeat split; auto.
      f_equal. exact Ht.
    + exists []. repeat split. simpl. intros c' [= <-]. exact Hc.
Qed.

(** [strip] keeps the middle of the text: what it drops on either side is
    white space, and what it keeps neither starts nor ends with white
    space. *)
Lemma strip_spec (t : text) :
  exists l r,
    t = l ++ strip t ++ r
    /\ forallb isspace l = true
    /\ forallb isspace r = true
    /\ (forall c, hd_error (strip t) = Some c -> isspace c = false)
    /\ (forall c, hd_error (rev (strip t)) = Some c -> isspace c = false).
Proof.
  unfold strip, rstrip.
  destruct (lstrip_spec t) as (l & Ht & Hl & Hh).
  destruct (lstrip_spec (rev (lstrip t))) as (r & Hr & Hrs & Hrh).
  exists l, (rev r).
  assert (Hu : lstrip t = rev (lstrip (rev (lstrip t))) ++ rev r).
  { rewrite <- rev_app_distr, <- Hr, rev_involutive. reflexivity. }
  repeat split.
  - rewrite <- Hu. exact Ht.
  - exact Hl.
  - rewrite forallb_forall in *. intros c Hc. apply Hrs.
    apply in_rev. exact Hc.
  - intros c Hc. apply Hh. rewrite Hu.
    destruct (rev (lstrip (rev (lstrip t)))); [discriminate|exact Hc].
  - rewrite rev_involutive. exact Hrh.
Qed.

Lemma lstrip_fixed (t : text) :
  (forall c, hd_error t = Some c -> isspace c = false) -> lstrip t = t.
Proof.
  destruct t as [|c t]; [reflexivity|]. intros H. simpl.
  rewrite (H c eq_refl). reflexivity.
Qed.

(** Stripping twice is stripping once. *)
Lemma strip_idempotent (t : text) : strip (strip t) = strip t.
Proof.
  destruct (strip_spec t) as (_ & _ & _ & _ & _ & Hh & Hl).
  unfold strip at 1, rstrip. rewrite (lstrip_fixed _ Hh).
  rewrite (lstrip_fixed _ Hl). apply rev_involutive.
Qed.

(** ** Evaluation of the methods, case by case *)

Ltac flatten_history := repeat rewrite <- app_assoc; simpl app.

Ltac run_py :=
  repeat progress
    (unfold try_except, try_finally, new_session, set_missing_host_key_policy,
       RSAKey_from_private_key_file, client_connect, client_close,
       client_exec_command, decode, get_self, assign_client, ask, log, emit,
       raise, ret, bind;
     simpl).

Ltac by_class e :=
  unfold connect_error_line;
  destruct (isinstance_AuthenticationException e);
  [|destruct (isinstance_SSHException e)];
  run_py; flatten_history; reflexivity.

Lemma disconnected_expr_connected_expr (h : SSHClient) :
  disconnected_expr h = negb (truthy (connected_expr h)).
Proof.
  unfold disconnected_expr, connected_expr.
  destruct (client h); reflexivity.
Qed.

Lemma connected_expr_live (h : SSHClient) :
  truthy (connected_expr h) = true <->
  exists c t,
    client h = Some c /\ get_transport c = Some t /\ is_active t = true.
Proof.
  unfold connected_expr, transport_active. split.
  - destruct (client h) as [c|]; simpl; try discriminate.
    destruct (get_transport c) as [t|] eqn:Et; simpl; try discriminate.
    intros Ha. exists c, t. auto.
  - intros (c & t & -> & -> & Ha). exact Ha.
Qed.

Section Evaluation.

Variable w : World.

(** An active session is reused: one log line, nothing else. *)
Lemma connect_reuse (s : State) :
  truthy (connected_expr (self s)) = true ->
  connect w s =
    (Returns tt, mkState (self s) (history s ++ [reuse_line (self s)])).
Proof.
  intros Ha. unfold connect, bind, get_self. rewrite Ha. reflexivity.
Qed.

(** Password branch. *)
Lemma connect_with_password (s : State) :
  truthy (connected_expr (self s)) = false ->
  truthy_str (password (self s)) = true ->
  connect w s =
    match net_connect w (history s ++ opening
                         ++ [Connect (password_args (self s))]) with
    | Connected =>
        (Returns tt,
         mkState (set_client (self s) (Some live_session))
           (history s ++ opening ++ [Connect (password_args (self s));
                                     connected_line (self s)]))
    | ConnectRaises e t =>
        (Raises e,
         mkState (set_client (self s) (Some (mkSession t)))
           (history s ++ opening
            ++ [Connect (password_args (self s));
                Log ERROR (connect_error_line (self s) e)]))
    end.
Proof.
  intros Hd Hp. destruct s as [h hist]. simpl in *.
  unfold connect, bind at 1, get_self. simpl. rewrite Hd, Hp.
  unfold try_except. run_py. flatten_history.
  destruct (net_connect w _) as [|e t]; simpl.
  - flatten_history. reflexivity.
  - by_class e.
Qed.

(** Key branch: the key file is read first, then the library connects. *)
Lemma connect_with_key (s : State) :
  truthy (connected_expr (self s)) = false ->
  truthy_str (password (self s)) = false ->
  truthy_str (key_path (self s)) = true ->
  connect w s =
    match from_private_key_file w
            (history s ++ opening
             ++ [FromPrivateKeyFile (key_path (self s))]) with
    | KeyRaises e =>
        (Raises e,
         mkState (set_client (self s) (Some (mkSession None)))
           (history s ++ opening
            ++ [FromPrivateKeyFile (key_path (self s));
                Log ERROR (connect_error_line (self s) e)]))
    | KeyLoaded k =>
        match net_connect w
                (history s ++ opening
                 ++ [FromPrivateKeyFile (key_path (self s));
                     Connect (pkey_args (self s) k)]) with
        | Connected =>
            (Returns tt,
             mkState (set_client (self s) (Some live_session))
               (history s ++ opening
                ++ [FromPrivateKeyFile (key_path (self s));
                    Connect (pkey_args (self s) k);
                    connected_line (self s)]))
        | ConnectRaises e t =>
            (Raises e,
             mkState (set_client (self s) (Some (mkSession t)))
               (history s ++ opening
                ++ [FromPrivateKeyFile (key_path (self s));
                    Connect (pkey_args (self s) k);
                    Log ERROR (connect_error_line (self s) e)]))
        end
    end.
Proof.
  intros Hd Hp Hk. destruct s as [h hist]. simpl in *.
  unfold connect, bind at 1, get_self. simpl. rewrite Hd, Hp, Hk.
  unfold try_except. run_py. flatten_history.
  destruct (from_private_key_file w _) as [k|e]; simpl.
  - flatten_history. destruct (net_connect w _) as [|e t]; simpl.
    + flatten_history. reflexivity.
    + by_class e.
  - by_class e.
Qed.

(** No credential: [ValueError], before any call that reaches the network. *)
Lemma connect_without_credentials (s : State) :
  truthy (connected_expr (self s)) = false ->
  truthy_str (password (self s)) = false ->
  truthy_str (key_path (self s)) = false ->
  connect w s =
    (Raises no_credentials,
     mkState (set_client (self s) (Some (mkSession None)))
       (history s ++ opening
        ++ [Log ERROR (connect_error_line (self s) no_credentials)])).
Proof.
  intros Hd Hp Hk. destruct s as [h hist]. simpl in *.
  unfold connect, bind at 1, get_self. simpl. rewrite Hd, Hp, Hk.
  unfold try_except. run_py. flatten_history. reflexivity.
Qed.

Lemma close_eval (s : State) :
  close w s =
    match client (self s) with
    | None => (Returns tt, s)
    | Some _ =>
        (Returns tt,
         mkState (set_client (self s) None)
           (history s
            ++ [CloseSession;
                close_line (self s)
                  (net_close w (history s ++ [CloseSession]))]))
    end.
Proof.
  destruct s as [h hist]. unfold close, bind at 1, get_self. simpl.
  destruct (client h); [|reflexivity].
  run_py. destruct (net_close w _); simpl; flatten_history; reflexivity.
Qed.

Lemma run_command_eval (h : SSHClient) (command : string) (timeout : Z)
  (s : State) (c : Session) :
  client (self s) = Some c ->
  run_command w h command timeout s =
    match exec_command w (history s ++ [ExecCommand command timeout]) with
    | ExecRaises e =>
        (Raises e,
         mkState (self s) (history s ++ [ExecCommand command timeout]))
    | Completed out err exit_status =>
        match decode_utf8 out with
        | None =>
            (Raises (decode_error out),
             mkState (self s) (history s ++ [ExecCommand command timeout]))
        | Some o =>
            match decode_utf8 err with
            | None =>
                (Raises (decode_error err),
                 mkState (self s)
                   (history s ++ [ExecCommand command timeout]))
            | Some e =>
                (Returns (strip o, strip e, exit_status),
                 mkState (self s)
                   (history s ++ [ExecCommand command timeout;
                                  command_line h command exit_status]))
            end
        end
    end.
Proof.
  intros Hc. destruct s as [h0 hist]. simpl in *.
  unfold run_command. run_py. rewrite Hc.
  destruct (exec_command w _) as [out err st|e]; [|reflexivity].
  destruct (decode_utf8 out) as [o|]; [|reflexivity]. simpl.
  destruct (decode_utf8 err) as [e|]; [|reflexivity]. simpl.
  unfold command_line.
  destruct (st =? 0)%Z; simpl; flatten_history; reflexivity.
Qed.

Lemma run_command_no_session (h : SSHClient) (command : string) (timeout : Z)
  (s : State) :
  client (self s) = None ->
  run_command w h command timeout s =
    (Raises (mkExn AttributeError
               "'NoneType' object has no attribute 'exec_command'"), s).
Proof.
  intros Hc. destruct s as [h0 hist]. simpl in *.
  unfold run_command. run_py. rewrite Hc. reflexivity.
Qed.

(** One level of [execute_command]. *)
Lemma execute_command_step (depth : nat) (command : string) (timeout : Z)
  (s : State) :
  execute_command w (S depth) command timeout s =
    match ensure_connected w s with
    | (Returns _, s1) =>
        match run_command w (self s) command timeout s1 with
        | (Raises e, s2) =>
            if isinstance_SSHException e then
              (Raises e,
               mkState (self s2) (history s2 ++ [ssh_error_line (self s) e]))
            else
              (close w ;; connect w ;;
               execute_command w depth command timeout)
                (mkState (self s2) (history s2 ++ [retry_line (self s) e]))
        | r => r
        end
    | (Raises e, s1) => (Raises e, s1)
    | (Unfinished, s1) => (Unfinished, s1)
    end.
Proof.
  unfold ensure_connected. simpl. unfold bind at 1, get_self at 1.
  unfold bind at 1.
  destruct ((if disconnected_expr (self s) then connect w else ret tt) s)
    as [[[]|e|] s1]; try reflexivity.
  unfold try_except.
  destruct (run_command w (self s) command timeout s1) as [[r|e|] s2];
    try reflexivity.
  destruct (isinstance_SSHException e); reflexivity.
Qed.

End Evaluation.

(** ** Facts about [connect] and [close] that hold in every world *)

Ltac connect_cases w s :=
  let Ha := fresh "Hlive" in
  let Hp := fresh "Hpw" in
  let Hk := fresh "Hkey" in
  destruct (truthy (connected_expr (self s))) eqn:Ha;
  [ rewrite (connect_reuse w s Ha)
  | destruct (truthy_str (password (self s))) eqn:Hp;
    [ rewrite (connect_with_password w s Ha Hp)
    | destruct (truthy_str (key_path (self s))) eqn:Hk;
      [ rewrite (connect_with_key w s Ha Hp Hk)
      | rewrite (connect_without_credentials w s Ha Hp Hk) ] ] ].

Lemma count_exec_app (l l' : list Event) :
  count_exec (l ++ l') = count_exec l + count_exec l'.
Proof.
  induction l as [|ev l IH]; simpl; [reflexivity|].
  destruct ev; simpl; rewrite IH; reflexivity.
Qed.

Lemma count_connect_app (l l' : list Event) :
  count_connect (l ++ l') = count_connect l + count_connect l'.
Proof.
  induction l as [|ev l IH]; simpl; [reflexivity|].
  destruct ev; simpl; rewrite IH; reflexivity.
Qed.

Lemma set_client_same (h : SSHClient) : set_client h (client h) = h.
Proof. destruct h; reflexivity. Qed.

(** [connect] touches no field but [client]. *)
Lemma connect_keeps_config (w : World) (s : State) :
  exists c, self (snd (connect w s)) = set_client (self s) c.
Proof.
  connect_cases w s.
  - exists (client (self s)). simpl. symmetry. apply set_client_same.
  - destruct (net_connect w _); simpl; eauto.
  - destruct (from_private_key_file w _); simpl; eauto.
    destruct (net_connect w _); simpl; eauto.
  - simpl. eauto.
Qed.

(** A [connect] that returns leaves an active session. *)
Lemma connect_returns_live (w : World) (s s1 : State) :
  connect w s = (Returns tt, s1) -> truthy (connected_expr (self s1)) = true.
Proof.
  connect_cases w s.
  - intros [= <-]. exact Hlive.
  - destruct (net_connect w _); intros [= <-]. reflexivity.
  - destruct (from_private_key_file w _); [|discriminate].
    destruct (net_connect w _); intros [= <-]. reflexivity.
  - discriminate.
Qed.

Lemma connect_never_unfinished (w : World) (s : State) :
  fst (connect w s) <> Unfinished.
Proof.
  connect_cases w s; simpl; try discriminate.
  - destruct (net_connect w _); discriminate.
  - destruct (from_private_key_file w _); [|discriminate].
    destruct (net_connect w _); discriminate.
Qed.

Ltac count_events :=
  simpl; rewrite ?count_exec_app, ?count_connect_app;
  unfold opening, reuse_line, connected_line, retry_line, ssh_error_line;
  simpl; lia.

Lemma connect_count_exec (w : World) (s : State) :
  count_exec (history (snd (connect w s))) = count_exec (history s).
Proof.
  connect_cases w s.
  - count_events.
  - destruct (net_connect w _); count_events.
  - destruct (from_private_key_file w _);
      [destruct (net_connect w _)|]; count_events.
  - count_events.
Qed.

Lemma close_count_exec (w : World) (s : State) :
  count_exec (history (snd (close w s))) = count_exec (history s).
Proof.
  rewrite close_eval. destruct (client (self s)); [|reflexivity].
  unfold close_line. destruct (net_close w _); count_events.
Qed.

(** After the implicit connect of [execute_command] has returned there is
    a session object to run the command on. *)
Lemma ensure_connected_returns (w : World) (s s1 : State) :
  ensure_connected w s = (Returns tt, s1) ->
  (exists c, client (self s1) = Some c)
  /\ (exists c, self s1 = set_client (self s) c)
  /\ count_exec (history s1) = count_exec (history s).
Proof.
  unfold ensure_connected. rewrite disconnected_expr_connected_expr.
  destruct (truthy (connected_expr (self s))) eqn:Hlive; simpl.
  - intros [= <-]. apply connected_expr_live in Hlive as (c & _ & Hc & _).
    repeat split; eauto. exists (client (self s)). symmetry.
    apply set_client_same.
  - intros Hc. pose proof (connect_returns_live _ _ _ Hc) as Hl.
    apply connected_expr_live in Hl as (c & _ & Hc' & _).
    pose proof (connect_keeps_config w s) as Hk.
    pose proof (connect_count_exec w s) as Hn.
    rewrite Hc in Hk, Hn. simpl in *. repeat split; eauto.
Qed.

(** ** [connect] on an active session *)

(** C4. [connect] is idempotent on an active session.  When the stored
    session exists and its transport is active, [connect] returns after
    writing one log line: no library call is made and the handle is left
    as it was.  Hence a [connect] directly after a [connect] that returned
    only adds that line, and two calls in a row from a disconnected handle
    make the library connect exactly once. *)
Theorem C4_connect_idempotent :
  (forall (w : World) (s : State) (c : Session) (t : Transport),
      client (self s) = Some c ->
      get_transport c = Some t ->
      is_active t = true ->
      connect w s =
        (Returns tt,
         mkState (self s)
           (history s
            ++ [Log INFO ("Already connected to " ++ host (self s)
                          ++ ". Reusing the connection.")])))
  /\ (forall (w : World) (s s1 : State),
         connect w s = (Returns tt, s1) ->
         connect w s1 =
           (Returns tt,
            mkState (self s1)
              (history s1
               ++ [Log INFO ("Already connected to " ++ host (self s1)
                             ++ ". Reusing the connection.")])))
  /\ (forall (w : World) (s s1 s2 : State),
         truthy (connected_expr (self s)) = false ->
         connect w s = (Returns tt, s1) ->
         connect w s1 = (Returns tt, s2) ->
         self s2 = self s1
         /\ count_connect (history s1) = S (count_connect (history s))
         /\ count_connect (history s2) = S (count_connect (history s))).
Proof.
  assert (Hreuse : forall w s, truthy (connected_expr (self s)) = true ->
            connect w s =
              (Returns tt,
               mkState (self s)
                 (history s
                  ++ [Log INFO ("Already connected to " ++ host (self s)
                                ++ ". Reusing the connection.")]))).
  { intros w s Hl. rewrite (connect_reuse w s Hl). reflexivity. }
  split; [|split].
  - intros w s c t Hc Ht Ha. apply Hreuse.
    apply connected_expr_live. eauto.
  - intros w s s1 H1. apply Hreuse. eapply connect_returns_live; eauto.
  - intros w s s1 s2 Hd H1 H2.
    rewrite (Hreuse w s1 (connect_returns_live _ _ _ H1)) in H2.
    injection H2 as <-. simpl. split; [reflexivity|].
    assert (count_connect (history s1) = S (count_connect (history s))).
    { revert H1. destruct (truthy_str (password (self s))) eqn:Hp.
      - rewrite (connect_with_password w s Hd Hp).
        destruct (net_connect w _); intros [= <-]. count_events.
      - destruct (truthy_str (key_path (self s))) eqn:Hk.
        + rewrite (connect_with_key w s Hd Hp Hk).
          destruct (from_private_key_file w _); [|discriminate].
          destruct (net_connect w _); intros [= <-]. count_events.
        + rewrite (connect_without_credentials w s Hd Hp Hk). discriminate. }
    split; [assumption|]. count_events.
Qed.

Lemma C4_connect_idempotent_witness :
  connect w_ok (snd (connect w_ok (fresh h_password))) =
    (Returns tt,
     mkState (self (snd (connect w_ok (fresh h_password))))
       (history (snd (connect w_ok (fresh h_password)))
        ++ [Log INFO "Already connected to h. Reusing the connection."])).
Proof.
  apply (proj1 C4_connect_idempotent w_ok
           (snd (connect w_ok (fresh h_password)))
           live_session (mkTransport true));
    reflexivity.
Defined.

(** ** [close] *)

(** C5. [close] never raises.  Whatever the state and whatever the
    library's [close] does, [close] returns; if a session was stored the
    library was asked to close it and the outcome was logged (success at
    info level, failure at error level); afterwards the stored session is
    cleared and [is_connected] is [False].  On a handle without session
    nothing happens at all. *)
Theorem C5_close_never_raises (w : World) (s : State) :
  close w s =
    (Returns tt,
     mkState (set_client (self s) None)
       (history s
        ++ match client (self s) with
           | None => []
           | Some _ =>
               [CloseSession;
                match net_close w (history s ++ [CloseSession]) with
                | Closed =>
                    Log INFO ("SSH connection closed for " ++ host (self s))
                | CloseRaises e =>
                    Log ERROR ("Error while closing SSH connection to "
                               ++ host (self s) ++ ": " ++ exn_str e)
                end]
           end))
  /\ client (self (snd (close w s))) = None
  /\ is_connected (self (snd (close w s))) = PyBool false
  /\ (client (self s) = None <-> snd (close w s) = s).
Proof.
  rewrite close_eval. destruct s as [h hist]. simpl.
  destruct (client h) as [c|] eqn:Hc; simpl.
  - repeat split; try discriminate.
    intros [= Hh _]. rewrite <- Hh in Hc. discriminate.
  - rewrite app_nil_r. rewrite <- Hc at 1. rewrite set_client_same.
    repeat split; auto.
    unfold is_connected, connected_expr. rewrite Hc. reflexivity.
Qed.

(** ** What is kept along every method *)

Section Preservation.

Variable P : State -> Prop.

Lemma preserves_ret {A : Type} (a : A) : preserves P (ret a).
Proof. intros s Hs. exact Hs. Qed.

Lemma preserves_raise {A : Type} (e : exn) : preserves P (@raise A e).
Proof. intros s Hs. exact Hs. Qed.

Lemma preserves_bind {A B : Type} (m : Py A) (k : A -> Py B) :
  preserves P m -> (forall a, preserves P (k a)) -> preserves P (bind m k).
Proof.
  intros Hm Hk s Hs. unfold bind. specialize (Hm s Hs).
  destruct (m s) as [[a|e|] s']; simpl in *; auto.
  apply Hk, Hm.
Qed.

Lemma preserves_try_except {A : Type} (m : Py A) (handler : exn -> Py A) :
  preserves P m -> (forall e, preserves P (handler e)) ->
  preserves P (try_except m handler).
Proof.
  intros Hm Hh s Hs. unfold try_except. specialize (Hm s Hs).
  destruct (m s) as [[a|e|] s']; simpl in *; auto.
  apply Hh, Hm.
Qed.

End Preservation.

Section HandlePreservation.

Variable Q : SSHClient -> Prop.

Lemma preserves_emit (ev : Event) : preserves (on_handle Q) (emit ev).
Proof. intros s Hs. exact Hs. Qed.

Lemma preserves_ask {A : Type} (oracle : list Event -> A) :
  preserves (on_handle Q) (ask oracle).
Proof. intros s Hs. exact Hs. Qed.

Lemma preserves_get_self : preserves (on_handle Q) get_self.
Proof. intros s Hs. exact Hs. Qed.

Lemma preserves_run_command (w : World) (h : SSHClient) (command : string)
  (timeout : Z) :
  preserves (on_handle Q) (run_command w h command timeout).
Proof.
  unfold run_command, client_exec_command, decode, log.
  repeat first
    [ apply preserves_bind | apply preserves_get_self | apply preserves_emit
    | apply preserves_ask | apply preserves_ret | apply preserves_raise
    | match goal with
      | |- forall _, preserves _ _ => intro
      | |- preserves _ (match ?x with _ => _ end) => destruct x
      end ].
Qed.

End HandlePreservation.

Lemma preserves_connect (w : World) :
  preserves (on_handle credentials_behind_session) (connect w).
Proof.
  intros s Hs. unfold on_handle, credentials_behind_session in *.
  destruct (connect_keeps_config w s) as [c Hc].
  revert Hc. connect_cases w s; simpl.
  - intros _ Hp Hk. discriminate (Hs Hp Hk).
  - intros -> Hp. simpl in Hp. congruence.
  - intros -> _ Hk. simpl in Hk. congruence.
  - intros _ _ _. reflexivity.
Qed.

Lemma preserves_close (w : World) :
  preserves (on_handle credentials_behind_session) (close w).
Proof.
  intros s _. rewrite close_eval. unfold on_handle.
  destruct (client (self s)) eqn:Hc; intros _ _; simpl.
  - reflexivity.
  - unfold connected_expr. rewrite Hc. reflexivity.
Qed.

Lemma preserves_execute_command (w : World) (depth : nat) (command : string)
  (timeout : Z) :
  preserves (on_handle credentials_behind_session)
    (execute_command w depth command timeout).
Proof.
  induction depth as [|depth IH]; simpl.
  - intros s Hs. exact Hs.
  - apply preserves_bind; [apply preserves_get_self|]. intros h.
    apply preserves_bind.
    { destruct (disconnected_expr h);
        [apply preserves_connect | apply preserves_ret]. }
    intros _. apply preserves_try_except; [apply preserves_run_command|].
    intros e. destruct (isinstance_SSHException e).
    + apply preserves_bind; [apply preserves_emit|]. intros _.
      apply preserves_raise.
    + apply preserves_bind; [apply preserves_emit|]. intros _.
      apply preserves_bind; [apply preserves_close|]. intros _.
      apply preserves_bind; [apply preserves_connect|]. intros _.
      exact IH.
Qed.

(** No handle built from its constructor ever holds an active session
    without a credential to have opened it with. *)
Lemma reachable_credentials (w : World) (s : State) :
  reachable w s -> credentials_behind_session (self s).
Proof.
  induction 1.
  - intros _ _. reflexivity.
  - apply (preserves_connect w s IHreachable).
  - apply (preserves_execute_command w depth command timeout s IHreachable).
  - apply (preserves_close w s IHreachable).
  - unfold __enter__.
    apply (preserves_bind (on_handle credentials_behind_session));
      [apply preserves_connect | intros; apply preserves_get_self | assumption].
  - apply (preserves_close w s IHreachable).
Qed.

(** ** Credentials *)

(** C2, counterexample.  A handle configured with both a password and a
    key path connects; it is not rejected. *)
Lemma C2_counterexample_both_set :
  truthy_str (password h_both) = true
  /\ truthy_str (key_path h_both) = true
  /\ connect w_ok (fresh h_both) =
       (Returns tt,
        mkState (set_client h_both (Some live_session))
          [NewSession; SetMissingHostKeyPolicy AutoAddPolicy;
           Connect (mkConnectArgs "h" "u" (Some "p") None 22 10);
           Log INFO "Successfully connected to h on port 22"]).
Proof. repeat split. Qed.

(** C2, as amended.  With neither a password nor a key path, [connect]
    on any handle built from the constructor raises [ValueError] after
    logging it, and no library call that reaches the network is made.  With
    both set the call is not rejected: it fails only if the library's
    password connect fails. *)
Theorem C2_connect_requires_a_credential (w : World) (s : State) :
  reachable w s ->
  (truthy_str (password (self s)) = false ->
   truthy_str (key_path (self s)) = false ->
   connect w s =
     (Raises
        (mkExn ValueError
           "Either password or key_path must be provided for SSH connection."),
      mkState (set_client (self s) (Some (mkSession None)))
        (history s
         ++ [NewSession; SetMissingHostKeyPolicy AutoAddPolicy;
             Log ERROR
               ("Unexpected error while connecting to " ++ host (self s)
                ++ ": Either password or key_path must be provided for SSH connection.")])))
  /\ (truthy_str (password (self s)) = true ->
      truthy_str (key_path (self s)) = true ->
      truthy (connected_expr (self s)) = false ->
      fst (connect w s) =
        match net_connect w
                (history s
                 ++ [NewSession; SetMissingHostKeyPolicy AutoAddPolicy;
                     Connect (password_args (self s))]) with
        | Connected => Returns tt
        | ConnectRaises e _ => Raises e
        end).
Proof.
  intros Hr. split.
  - intros Hp Hk.
    rewrite (connect_without_credentials w s
               (reachable_credentials w s Hr Hp Hk) Hp Hk).
    reflexivity.
  - intros Hp _ Hd. rewrite (connect_with_password w s Hd Hp).
    unfold opening. simpl. destruct (net_connect w _); reflexivity.
Qed.

Lemma C2_connect_requires_a_credential_witness :
  connect w_ok (snd (close w_ok (snd (connect w_ok (fresh h_neither))))) =
    (Raises
       (mkExn ValueError
          "Either password or key_path must be provided for SSH connection."),
     mkState (set_client h_neither (Some (mkSession None)))
       (history (snd (close w_ok (snd (connect w_ok (fresh h_neither)))))
        ++ [NewSession; SetMissingHostKeyPolicy AutoAddPolicy;
            Log ERROR
              "Unexpected error while connecting to h: Either password or key_path must be provided for SSH connection."])).
Proof.
  apply (proj1 (C2_connect_requires_a_credential w_ok
                  (snd (close w_ok (snd (connect w_ok (fresh h_neither)))))
                  (reach_close _ _ (reach_connect _ _
                     (reach_init w_ok "h" "u" None None 22)))));
    reflexivity.
Defined.

(** ** A [connect] that fails *)




(** ** A [connect] that opens a session *)

(** C8.  When [connect] does not find an active session it creates a
    session object, installs the trust-any-new-key policy and then
    authenticates: with the password whenever one is given, the library
    being called with the handle's host, user and port and a timeout of 10;
    otherwise with the key path, the key file being read first and the
    library then called with the key it yielded, the same host, user and
    port and a timeout of 10.  [outcome] is the log line that follows. *)
Theorem C8_connect_opens_transport (w : World) (s : State) :
  truthy (connected_expr (self s)) = false ->
  (truthy_str (password (self s)) = true ->
   exists outcome,
     history (snd (connect w s)) =
       history s
       ++ [NewSession; SetMissingHostKeyPolicy AutoAddPolicy;
           Connect (mkConnectArgs (host (self s)) (user (self s))
                      (password (self s)) None (port (self s)) 10);
           outcome])
  /\ (truthy_str (password (self s)) = false ->
      truthy_str (key_path (self s)) = true ->
      forall k,
        from_private_key_file w
          (history s
           ++ [NewSession; SetMissingHostKeyPolicy AutoAddPolicy;
               FromPrivateKeyFile (key_path (self s))])
        = KeyLoaded k ->
        exists outcome,
          history (snd (connect w s)) =
            history s
            ++ [NewSession; SetMissingHostKeyPolicy AutoAddPolicy;
                FromPrivateKeyFile (key_path (self s));
                Connect (mkConnectArgs (host (self s)) (user (self s))
                           None (Some k) (port (self s)) 10);
                outcome]).
Proof.
  intros Hd. split.
  - intros Hp. rewrite (connect_with_password w s Hd Hp). unfold opening.
    destruct (net_connect w _); simpl; eauto.
  - intros Hp Hk k Hf. rewrite (connect_with_key w s Hd Hp Hk).
    unfold opening. simpl. rewrite Hf.
    destruct (net_connect w _); simpl; eauto.
Qed.

Lemma C8_connect_opens_transport_witness :
  (exists outcome,
      history (snd (connect w_ok (fresh h_password))) =
        [NewSession; SetMissingHostKeyPolicy AutoAddPolicy;
         Connect (mkConnectArgs "h" "u" (Some "p") None 22 10); outcome])
  /\ (exists outcome,
         history (snd (connect w_ok (fresh h_key))) =
           [NewSession; SetMissingHostKeyPolicy AutoAddPolicy;
            FromPrivateKeyFile (Some "/root/.ssh/id_rsa");
            Connect (mkConnectArgs "h" "u" None (Some "key") 22 10);
            outcome]).
Proof.
  split.
  - apply (proj1 (C8_connect_opens_transport w_ok (fresh h_password)
                    eq_refl)).
    reflexivity.
  - apply (proj2 (C8_connect_opens_transport w_ok (fresh h_key) eq_refl)
             eq_refl eq_refl "key").
    reflexivity.
Defined.

(** C10.  With both a password and a key path configured, [connect] never
    reads the key file: no key-file call appears among the events of the
    call, the call comes out the same whatever the key files hold, and
    when a session is opened it is by a password connect. *)
Theorem C10_password_takes_precedence (w : World) (s : State) :
  truthy_str (password (self s)) = true ->
  truthy_str (key_path (self s)) = true ->
  (exists evs,
      history (snd (connect w s)) = history s ++ evs
      /\ existsb is_key_load evs = false
      /\ (truthy (connected_expr (self s)) = false ->
          exists outcome,
            evs = [NewSession; SetMissingHostKeyPolicy AutoAddPolicy;
                   Connect (mkConnectArgs (host (self s)) (user (self s))
                              (password (self s)) None (port (self s)) 10);
                   outcome]))
  /\ (forall files, connect (with_key_files w files) s = connect w s).
Proof.
  intros Hp _. split.
  - destruct (truthy (connected_expr (self s))) eqn:Hl.
    + rewrite (connect_reuse w s Hl). simpl.
      exists [reuse_line (self s)]. repeat split. discriminate.
    + rewrite (connect_with_password w s Hl Hp). unfold opening.
      destruct (net_connect w _); simpl;
        eexists; (split; [reflexivity|]); split; try reflexivity; eauto.
  - intros files. destruct (truthy (connected_expr (self s))) eqn:Hl.
    + rewrite !connect_reuse by exact Hl. reflexivity.
    + rewrite !connect_with_password by assumption. reflexivity.
Qed.

Lemma C10_password_takes_precedence_witness :
  exists evs,
    history (snd (connect w_ok (fresh h_both))) = history (fresh h_both) ++ evs
    /\ existsb is_key_load evs = false
    /\ (truthy (connected_expr (self (fresh h_both))) = false ->
        exists outcome,
          evs = [NewSession; SetMissingHostKeyPolicy AutoAddPolicy;
                 Connect (mkConnectArgs (host (self (fresh h_both)))
                            (user (self (fresh h_both)))
                            (password (self (fresh h_both))) None
                            (port (self (fresh h_both))) 10);
                 outcome]).
Proof.
  apply (proj1 (C10_password_takes_precedence w_ok (fresh h_both)
                  eq_refl eq_refl)).
Defined.

(** ** [is_connected] *)

Lemma is_connected_true_iff (h : SSHClient) :
  truthy (is_connected h) = true <->
  exists c t,
    client h = Some c /\ get_transport c = Some t /\ is_active t = true.
Proof. apply connected_expr_live. Qed.

Lemma is_connected_none_iff (h : SSHClient) :
  is_connected h = PyNone <->
  exists c, client h = Some c /\ get_transport c = None.
Proof.
  unfold is_connected, connected_expr, transport_active. split.
  - destruct (client h) as [c|]; [|discriminate].
    destruct (get_transport c) eqn:Ht; [discriminate|]. eauto.
  - intros (c & -> & ->). reflexivity.
Qed.

(** C9.  On a handle whose session object has no transport [is_connected]
    returns [None], not the boolean [False] its docstring promises.  Such a
    handle is what a [connect] that raised before the library opened a
    transport leaves behind. *)
Theorem C9_is_connected_returns_None :
  reachable w_ok (snd (connect w_ok (fresh h_neither)))
  /\ client (self (snd (connect w_ok (fresh h_neither))))
     = Some (mkSession None)
  /\ is_connected (self (snd (connect w_ok (fresh h_neither)))) = PyNone
  /\ is_connected (self (snd (connect w_ok (fresh h_neither))))
     <> PyBool false.
Proof.
  split; [|repeat split; discriminate].
  apply reach_connect. apply (reach_init w_ok "h" "u" None None 22).
Qed.

(** ** [execute_command] *)

Lemma ensure_connected_connect (w : World) (s : State) :
  disconnected_expr (self s) = true -> ensure_connected w s = connect w s.
Proof. intros Hd. unfold ensure_connected. rewrite Hd. reflexivity. Qed.

(** The recovery sequence: [close] returns, so what follows is decided by
    [connect] on the closed handle. *)
Lemma retry_eval (w : World) {A : Type} (k : Py A) (s : State) :
  (close w ;; connect w ;; k) s =
    match connect w (snd (close w s)) with
    | (Returns _, s') => k s'
    | (Raises e, s') => (Raises e, s')
    | (Unfinished, s') => (Unfinished, s')
    end.
Proof.
  unfold bind at 1. rewrite close_eval.
  destruct (client (self s)); reflexivity.
Qed.

Lemma close_keeps_config (w : World) (s : State) :
  self (snd (close w s)) = set_client (self s) None.
Proof.
  rewrite close_eval. destruct (client (self s)) eqn:Hc; simpl; auto.
  rewrite <- Hc. symmetry. apply set_client_same.
Qed.

(** A command that completes with decodable output is returned as it is,
    whatever its exit status. *)
Lemma execute_command_completed (w : World) (depth : nat) (command : string)
  (timeout : Z) (s s1 : State) (out err : list byte) (exit_status : Z)
  (o e : text) :
  ensure_connected w s = (Returns tt, s1) ->
  exec_command w (history s1 ++ [ExecCommand command timeout])
  = Completed out err exit_status ->
  decode_utf8 out = Some o ->
  decode_utf8 err = Some e ->
  execute_command w (S depth) command timeout s =
    (Returns (strip o, strip e, exit_status),
     mkState (self s1)
       (history s1 ++ [ExecCommand command timeout;
                       command_line (self s) command exit_status])).
Proof.
  intros H1 Hx Ho He. rewrite execute_command_step, H1.
  destruct (ensure_connected_returns _ _ _ H1) as ((c & Hc) & _).
  rewrite (run_command_eval w _ _ _ s1 c Hc), Hx, Ho, He. reflexivity.
Qed.

Section Persistent.

Variable w : World.
Hypothesis Hconnects : always_connects w.

Lemma connect_always_returns (s : State) :
  truthy_str (password (self s)) = true ->
  exists s1,
    connect w s = (Returns tt, s1)
    /\ password (self s1) = password (self s)
    /\ count_exec (history s1) = count_exec (history s).
Proof.
  intros Hp. pose proof (connect_count_exec w s) as Hn.
  destruct (connect_keeps_config w s) as [c Hc]. revert Hn Hc.
  destruct (truthy (connected_expr (self s))) eqn:Hl.
  - rewrite (connect_reuse w s Hl). simpl. eauto.
  - rewrite (connect_with_password w s Hl Hp), Hconnects. simpl. eauto.
Qed.

Lemma ensure_connected_always_returns (s : State) :
  truthy_str (password (self s)) = true ->
  exists s1 c,
    ensure_connected w s = (Returns tt, s1)
    /\ client (self s1) = Some c
    /\ password (self s1) = password (self s)
    /\ count_exec (history s1) = count_exec (history s).
Proof.
  intros Hp.
  assert (exists s1, ensure_connected w s = (Returns tt, s1)) as [s1 H1].
  { unfold ensure_connected. destruct (disconnected_expr (self s)).
    - destruct (connect_always_returns s Hp) as (s1 & -> & _). eauto.
    - simpl. unfold ret. eauto. }
  destruct (ensure_connected_returns _ _ _ H1) as ((c & Hc) & (c' & Hk) & Hn).
  exists s1, c. repeat split; auto. rewrite Hk. reflexivity.
Qed.

(** In a world where every attempt fails other than by a protocol error,
    each level of the recursion makes one attempt and calls the next. *)
Lemma never_returns (command : string) (timeout : Z) :
  always_fails_softly w ->
  forall (depth : nat) (s : State),
    truthy_str (password (self s)) = true ->
    fst (execute_command w depth command timeout s) = Unfinished
    /\ count_exec (history (snd (execute_command w depth command timeout s)))
       = count_exec (history s) + depth.
Proof.
  intros Hsoft. induction depth as [|depth IH]; intros s Hp.
  - simpl. split; [reflexivity|lia].
  - rewrite execute_command_step.
    destruct (ensure_connected_always_returns s Hp)
      as (s1 & c & -> & Hc & Hp1 & Hn1).
    rewrite (run_command_eval w _ _ _ s1 c Hc).
    assert (Hretry : forall e0,
      let r := (close w ;; connect w ;; execute_command w depth command timeout)
                 (mkState (self s1)
                    ((history s1 ++ [ExecCommand command timeout])
                     ++ [retry_line (self s) e0])) in
      fst r = Unfinished
      /\ count_exec (history (snd r)) = count_exec (history s) + S depth).
    { intros e0. cbv zeta. rewrite retry_eval.
      set (s2 := mkState _ _).
      assert (Hp2 : truthy_str (password (self (snd (close w s2)))) = true).
      { rewrite close_keeps_config. simpl. congruence. }
      destruct (connect_always_returns _ Hp2) as (s3 & -> & Hp3 & Hn3).
      assert (Hp3' : truthy_str (password (self s3)) = true) by congruence.
      destruct (IH s3 Hp3') as [Hu Hn]. split; [exact Hu|].
      rewrite Hn, Hn3, close_count_exec. subst s2. count_events. }
    specialize (Hsoft (history s1 ++ [ExecCommand command timeout])).
    destruct (exec_command w _) as [out err st|e].
    + rewrite Hsoft. apply (Hretry (decode_error out)).
    + rewrite Hsoft. apply (Hretry e).
Qed.

End Persistent.

Lemma w_flaky_connects (n : nat) : always_connects (w_flaky n).
Proof. intros tr. reflexivity. Qed.

Lemma decode_ok :
  decode_utf8 (bytes_of "ok" ++ [x0a]) = Some (text_of "ok" ++ [10%N]).
Proof. reflexivity. Qed.

(** In [w_flaky n] a call needs exactly the [n] retries. *)
Lemma w_flaky_returns (n : nat) (command : string) (timeout : Z) :
  forall (m : nat) (s : State),
    truthy_str (password (self s)) = true ->
    count_exec (history s) + m = n ->
    exists s',
      execute_command (w_flaky n) (S m) command timeout s
      = (Returns (text_of "ok", [], 0%Z), s')
      /\ count_exec (history s') = S n.
Proof.
  induction m as [|m IH]; intros s Hp Hn.
  - destruct (ensure_connected_always_returns _ (w_flaky_connects n) s Hp)
      as (s1 & c & H1 & Hc & Hp1 & Hn1).
    assert (Hx : exec_command (w_flaky n)
                   (history s1 ++ [ExecCommand command timeout])
                 = Completed (bytes_of "ok" ++ [x0a]) [] 0).
    { simpl. rewrite count_exec_app, Hn1. simpl.
      destruct (Nat.leb_spec (count_exec (history s) + 1) n); [lia|].
      reflexivity. }
    rewrite (execute_command_completed _ 0 command timeout s s1 _ _ _ _ _
               H1 Hx decode_ok eq_refl).
    eexists. split; [reflexivity|]. count_events.
  - rewrite execute_command_step.
    destruct (ensure_connected_always_returns _ (w_flaky_connects n) s Hp)
      as (s1 & c & -> & Hc & Hp1 & Hn1).
    rewrite (run_command_eval _ _ _ _ s1 c Hc). simpl exec_command.
    rewrite count_exec_app, Hn1. simpl count_exec.
    destruct (Nat.leb_spec (count_exec (history s) + 1) n); [|lia].
    simpl. rewrite retry_eval. set (s2 := mkState _ _).
    assert (Hp2 : truthy_str (password (self (snd (close (w_flaky n) s2))))
                  = true).
    { rewrite close_keeps_config. simpl. congruence. }
    destruct (connect_always_returns _ (w_flaky_connects n) _ Hp2)
      as (s3 & -> & Hp3 & Hn3).
    apply IH; [congruence|].
    rewrite Hn3, close_count_exec. subst s2. count_events.
Qed.

(** With less depth than that the call is cut off. *)
Lemma w_flaky_needs_depth (n : nat) (command : string) (timeout : Z) :
  forall (m : nat) (s : State),
    truthy_str (password (self s)) = true ->
    count_exec (history s) + m <= n ->
    fst (execute_command (w_flaky n) m command timeout s) = Unfinished.
Proof.
  induction m as [|m IH]; intros s Hp Hn; [reflexivity|].
  rewrite execute_command_step.
  destruct (ensure_connected_always_returns _ (w_flaky_connects n) s Hp)
    as (s1 & c & -> & Hc & Hp1 & Hn1).
  rewrite (run_command_eval _ _ _ _ s1 c Hc). simpl exec_command.
  rewrite count_exec_app, Hn1. simpl count_exec.
  destruct (Nat.leb_spec (count_exec (history s) + 1) n); [|lia].
  simpl. rewrite retry_eval. set (s2 := mkState _ _).
  assert (Hp2 : truthy_str (password (self (snd (close (w_flaky n) s2))))
                = true).
  { rewrite close_keeps_config. simpl. congruence. }
  destruct (connect_always_returns _ (w_flaky_connects n) _ Hp2)
    as (s3 & -> & Hp3 & Hn3).
  apply IH; [congruence|].
  rewrite Hn3, close_count_exec. subst s2. count_events.
Qed.

(** C6, counterexample.  The command completes with exit status 0 and the
    single output byte [0xFF].  The call does not return the triple of that
    run: decoding raises, the handler starts over, and so on for ever. *)
Lemma C6_counterexample_undecodable_output :
  exec_command w_binary
    (history (snd (connect w_binary (fresh h_password)))
     ++ [ExecCommand "cat /bin/true" 30%Z])
  = Completed [xff] [] 0
  /\ decode_utf8 [xff] = None
  /\ (forall depth,
         fst (execute_command w_binary depth "cat /bin/true" 30%Z
                (fresh h_password)) = Unfinished)
  /\ count_exec
       (history (snd (execute_command w_binary 4 "cat /bin/true" 30%Z
                        (fresh h_password)))) = 4.
Proof.
  repeat split.
  intros depth.
  apply (never_returns w_binary (fun _ => eq_refl) "cat /bin/true" 30%Z
           (fun _ => eq_refl) depth (fresh h_password) eq_refl).
Qed.

(** C6, as amended.  When the command completes and both streams are valid
    UTF-8, [execute_command] returns the decoded and stripped standard
    output, the decoded and stripped standard error and the exit status,
    whatever the exit status is: status 0 is logged at info level, any
    other status at warning level, and neither raises. *)
Theorem C6_completed_command_returns_triple (w : World) (depth : nat)
  (command : string) (timeout : Z) (s s1 : State) (out err : list byte)
  (exit_status : Z) (o e : text) :
  ensure_connected w s = (Returns tt, s1) ->
  exec_command w (history s1 ++ [ExecCommand command timeout])
  = Completed out err exit_status ->
  decode_utf8 out = Some o ->
  decode_utf8 err = Some e ->
  execute_command w (S depth) command timeout s =
    (Returns (strip o, strip e, exit_status),
     mkState (self s1)
       (history s1
        ++ [ExecCommand command timeout;
            if (exit_status =? 0)%Z then
              Log INFO ("Command executed successfully on " ++ host (self s)
                        ++ ": " ++ command)
            else
              Log WARNING ("Command execution failed on " ++ host (self s)
                           ++ " with exit status " ++ str_of_Z exit_status)])).
Proof.
  intros H1 Hx Ho He.
  rewrite (execute_command_completed w depth command timeout s s1 out err
             exit_status o e H1 Hx Ho He).
  unfold command_line. destruct (exit_status =? 0)%Z; reflexivity.
Qed.

Lemma C6_completed_command_returns_triple_witness :
  execute_command w_exit7 1 "exit 7" 30%Z (fresh h_password) =
    (Returns ([], [], 7%Z),
     mkState (set_client h_password (Some live_session))
       [NewSession; SetMissingHostKeyPolicy AutoAddPolicy;
        Connect (mkConnectArgs "h" "u" (Some "p") None 22 10);
        Log INFO "Successfully connected to h on port 22";
        ExecCommand "exit 7" 30%Z;
        Log WARNING "Command execution failed on h with exit status 7"]).
Proof.
  apply (C6_completed_command_returns_triple w_exit7 0 "exit 7" 30%Z
           (fresh h_password)
           (snd (ensure_connected w_exit7 (fresh h_password)))
           [] [] 7%Z [] []);
    reflexivity.
Defined.

(** C7, counterexample.  Three calls on a handle without session, none of
    which returns a triple: without credentials [connect] raises and no
    session is established; with a session established, output that does
    not decode is never returned; and a protocol error on the channel is
    raised to the caller. *)
Lemma C7_counterexample_no_triple :
  disconnected_expr (self (fresh h_neither)) = true
  /\ fst (execute_command w_ok 1 "echo ok" 30 (fresh h_neither))
     = Raises no_credentials
  /\ count_connect
       (history (snd (execute_command w_ok 1 "echo ok" 30 (fresh h_neither))))
     = 0
  /\ disconnected_expr (self (fresh h_password)) = true
  /\ (forall depth,
         fst (execute_command w_binary depth "cat /bin/true" 30
                (fresh h_password)) = Unfinished)
  /\ fst (execute_command w_broken_channel 1 "echo ok" 30 (fresh h_password))
     = Raises (mkExn SSHException "Channel closed.").
Proof.
  repeat split.
  intros depth.
  apply (never_returns w_binary (fun _ => eq_refl) "cat /bin/true" 30
           (fun _ => eq_refl) depth (fresh h_password) eq_refl).
Qed.

(** C7, as amended.  On a handle without active session [execute_command] runs
    [connect] before anything else.  If [connect] raises, the call raises
    the same exception from the same state and the command is not run.  If
    [connect] returns, it has opened a new session, and a command that then
    completes with decodable streams is returned as the triple of stripped
    output, stripped error and exit status. *)
Theorem C7_execute_command_connects_first (w : World) (depth : nat)
  (command : string) (timeout : Z) (s : State) :
  disconnected_expr (self s) = true ->
  (forall e s1,
      connect w s = (Raises e, s1) ->
      execute_command w (S depth) command timeout s = (Raises e, s1))
  /\ (forall s1 out err exit_status o e,
         connect w s = (Returns tt, s1) ->
         exec_command w (history s1 ++ [ExecCommand command timeout])
         = Completed out err exit_status ->
         decode_utf8 out = Some o ->
         decode_utf8 err = Some e ->
         (exists evs,
             history s1 =
               history s
               ++ [NewSession; SetMissingHostKeyPolicy AutoAddPolicy] ++ evs)
         /\ execute_command w (S depth) command timeout s =
              (Returns (strip o, strip e, exit_status),
               mkState (self s1)
                 (history s1
                  ++ [ExecCommand command timeout;
                      command_line (self s) command exit_status]))).
Proof.
  intros Hd. split.
  - intros e s1 Hc. rewrite execute_command_step.
    rewrite (ensure_connected_connect w s Hd), Hc. reflexivity.
  - intros s1 out err st o e Hc Hx Ho He. split.
    + rewrite disconnected_expr_connected_expr in Hd.
      apply negb_true_iff in Hd. revert Hc.
      destruct (truthy_str (password (self s))) eqn:Hp.
      * rewrite (connect_with_password w s Hd Hp). unfold opening.
        destruct (net_connect w _); intros [= <-]. simpl. eauto.
      * destruct (truthy_str (key_path (self s))) eqn:Hk.
        -- rewrite (connect_with_key w s Hd Hp Hk). unfold opening.
           destruct (from_private_key_file w _); [|discriminate].
           destruct (net_connect w _); intros [= <-]. simpl. eauto.
        -- rewrite (connect_without_credentials w s Hd Hp Hk). discriminate.
    + apply execute_command_completed with (out := out) (err := err); auto.
      rewrite (ensure_connected_connect w s Hd). exact Hc.
Qed.

Lemma C7_execute_command_connects_first_witness :
  execute_command w_ok 1 "echo ok" 30%Z (fresh h_password) =
    (Returns (text_of "ok", [], 0%Z),
     mkState (set_client h_password (Some live_session))
       [NewSession; SetMissingHostKeyPolicy AutoAddPolicy;
        Connect (mkConnectArgs "h" "u" (Some "p") None 22 10);
        Log INFO "Successfully connected to h on port 22";
        ExecCommand "echo ok" 30%Z;
        Log INFO "Command executed successfully on h: echo ok"])
  /\ execute_command w_rejects 1 "echo ok" 30%Z (fresh h_password) =
       (Raises bad_password, snd (connect w_rejects (fresh h_password))).
Proof.
  split.
  - apply (proj2 (C7_execute_command_connects_first w_ok 0 "echo ok" 30%Z
                    (fresh h_password) eq_refl)
             (snd (connect w_ok (fresh h_password)))
             (bytes_of "ok" ++ [x0a]) [] 0%Z (text_of "ok" ++ [10%N]) []);
      reflexivity.
  - apply (proj1 (C7_execute_command_connects_first w_rejects 0 "echo ok" 30%Z
                    (fresh h_password) eq_refl)).
    reflexivity.
Defined.

(** ** The scenarios of the specification *)

Example scenario_echo_ok :
  fst (execute_command w_ok 1 "echo ok" default_timeout (fresh h_password))
  = Returns (text_of "ok", text_of "", 0%Z).
Proof. reflexivity. Qed.

Example scenario_exit_7 :
  fst (execute_command w_exit7 1 "exit 7" default_timeout (fresh h_password))
  = Returns (text_of "", text_of "", 7%Z).
Proof. reflexivity. Qed.

Example scenario_retry_then_ok :
  fst (execute_command (w_flaky 2) 3 "uptime" default_timeout
         (fresh h_password))
  = Returns (text_of "ok", [], 0%Z)
  /\ count_exec
       (history (snd (execute_command (w_flaky 2) 3 "uptime" default_timeout
                        (fresh h_password)))) = 3.
Proof. split; reflexivity. Qed.

(** A rejected password: the exception reaches the caller, and what
    [is_connected] says afterwards is what the library left behind. *)
Example scenario_wrong_password :
  fst (connect w_rejects (fresh h_password)) = Raises bad_password
  /\ is_connected (self (snd (connect w_rejects (fresh h_password)))) = PyNone
  /\ fst (connect w_rejects_keeps_transport (fresh h_password))
     = Raises bad_password
  /\ is_connected
       (self (snd (connect w_rejects_keeps_transport (fresh h_password))))
     = PyBool true.
Proof. repeat split. Qed.

(** The handle as a context manager: entering connects, leaving closes. *)
Example scenario_with_block :
  fst (__enter__ w_ok (fresh h_password))
  = Returns (set_client h_password (Some live_session))
  /\ is_connected
       (self (snd (__exit__ w_ok (snd (__enter__ w_ok (fresh h_password))))))
     = PyBool false.
Proof. split; reflexivity. Qed.

(** * Further properties *)

(** ** Events and configuration along the methods *)

Lemma config_set_client (h : SSHClient) (c : option Session) :
  config (set_client h c) = config h.
Proof. reflexivity. Qed.

Lemma config_fields (h h0 : SSHClient) :
  config h = config h0 ->
  host h = host h0 /\ user h = user h0 /\ password h = password h0
  /\ key_path h = key_path h0 /\ port h = port h0.
Proof. unfold config, set_client. intros [= -> -> -> -> ->]. auto. Qed.

Lemma connect_event_config (h h0 : SSHClient) (ev : Event) :
  config h = config h0 -> connect_event h ev -> connect_event h0 ev.
Proof.
  intros Hc. apply config_fields in Hc as (Hh & Hu & Hp & Hk & Hn).
  destruct ev; simpl; unfold connect_args_of;
    rewrite ?Hh, ?Hu, ?Hp, ?Hk, ?Hn; auto.
Qed.

Section Appends.

Context {h0 : SSHClient} {Q : Event -> Prop}.

Lemma appends_ret {A : Type} (a : A) : appends h0 Q (ret a).
Proof.
  intros s Hs. split; [exact Hs|]. exists []. simpl.
  rewrite app_nil_r. auto.
Qed.

Lemma appends_raise {A : Type} (e : exn) : appends h0 Q (@raise A e).
Proof.
  intros s Hs. split; [exact Hs|]. exists []. simpl.
  rewrite app_nil_r. auto.
Qed.

Lemma appends_unfinished {A : Type} :
  appends h0 Q (fun s => (@Unfinished A, s)).
Proof.
  intros s Hs. split; [exact Hs|]. exists []. simpl.
  rewrite app_nil_r. auto.
Qed.

Lemma appends_emit (ev : Event) : Q ev -> appends h0 Q (emit ev).
Proof.
  intros Hq s Hs. split; [exact Hs|]. exists [ev]. simpl. auto.
Qed.

Lemma appends_ask {A : Type} (oracle : list Event -> A) :
  appends h0 Q (ask oracle).
Proof.
  intros s Hs. split; [exact Hs|]. exists []. simpl.
  rewrite app_nil_r. auto.
Qed.

Lemma appends_then {A B : Type} (m : Py A) (k : State -> Result B * State)
  (s : State) :
  config (self s) = config h0 ->
  appends h0 Q m ->
  (config (self (snd (m s))) = config h0 ->
   config (self (snd (k (snd (m s))))) = config h0
   /\ exists evs,
        history (snd (k (snd (m s)))) = history (snd (m s)) ++ evs
        /\ Forall Q evs) ->
  config (self (snd (k (snd (m s))))) = config h0
  /\ exists evs,
       history (snd (k (snd (m s)))) = history s ++ evs /\ Forall Q evs.
Proof.
  intros Hs Hm Hk. destruct (Hm s Hs) as (H1 & evs1 & He1 & Hq1).
  destruct (Hk H1) as (H2 & evs2 & He2 & Hq2). split; [exact H2|].
  exists (evs1 ++ evs2). rewrite He2, He1, app_assoc. split; [reflexivity|].
  apply Forall_app. auto.
Qed.

Lemma appends_bind {A B : Type} (m : Py A) (k : A -> Py B) :
  appends h0 Q m -> (forall a, appends h0 Q (k a)) -> appends h0 Q (bind m k).
Proof.
  intros Hm Hk s Hs. unfold bind.
  destruct (m s) as [[a|e|] s1] eqn:Em.
  - pose proof (appends_then m (k a) s Hs Hm) as H. rewrite Em in H.
    apply H. intros H1. apply (Hk a s1 H1).
  - specialize (Hm s Hs). rewrite Em in Hm. exact Hm.
  - specialize (Hm s Hs). rewrite Em in Hm. exact Hm.
Qed.

Lemma appends_try_except {A : Type} (m : Py A) (handler : exn -> Py A) :
  appends h0 Q m -> (forall e, appends h0 Q (handler e)) ->
  appends h0 Q (try_except m handler).
Proof.
  intros Hm Hh s Hs. unfold try_except.
  destruct (m s) as [[a|e|] s1] eqn:Em.
  - specialize (Hm s Hs). rewrite Em in Hm. exact Hm.
  - pose proof (appends_then m (handler e) s Hs Hm) as H. rewrite Em in H.
    apply H. intros H1. apply (Hh e s1 H1).
  - specialize (Hm s Hs). rewrite Em in Hm. exact Hm.
Qed.

(** What follows [h <- get_self] runs with a handle configured like [h0]. *)
Lemma appends_get_self {B : Type} (k : SSHClient -> Py B) :
  (forall h, config h = config h0 -> appends h0 Q (k h)) ->
  appends h0 Q (bind get_self k).
Proof.
  intros Hk s Hs. unfold bind, get_self. apply (Hk (self s) Hs s Hs).
Qed.

End Appends.

Lemma appends_weaken {A : Type} (h0 : SSHClient) (Q Q' : Event -> Prop)
  (m : Py A) :
  (forall ev, Q ev -> Q' ev) -> appends h0 Q m -> appends h0 Q' m.
Proof.
  intros Hq Hm s Hs. destruct (Hm s Hs) as (H1 & evs & He & Hf).
  split; [exact H1|]. exists evs. split; [exact He|].
  eapply Forall_impl; eauto.
Qed.

Ltac events_ok :=
  repeat first
    [ apply Forall_nil
    | apply Forall_cons; [simpl; auto|] ].

(** The events of one [connect]. *)
Lemma connect_events (w : World) (s : State) :
  exists evs,
    history (snd (connect w s)) = history s ++ evs
    /\ Forall (connect_event (self s)) evs.
Proof.
  assert (Hargs_pw : truthy_str (password (self s)) = true ->
            connect_args_of (self s) (password_args (self s))).
  { intros Hp. unfold connect_args_of. simpl. repeat split. left. auto. }
  assert (Hargs_key : forall k,
            truthy_str (password (self s)) = false ->
            truthy_str (key_path (self s)) = true ->
            connect_args_of (self s) (pkey_args (self s) k)).
  { intros k Hp Hk. unfold connect_args_of. simpl. repeat split.
    right. repeat split; eauto. }
  connect_cases w s; unfold opening, reuse_line, connected_line.
  - eexists. split; [reflexivity|]. events_ok.
  - destruct (net_connect w _); (eexists; split; [reflexivity|]); events_ok.
  - destruct (from_private_key_file w _);
      [destruct (net_connect w _)|]; (eexists; split; [reflexivity|]);
      events_ok.
  - eexists. split; [reflexivity|]. events_ok.
Qed.

Lemma connect_appends (w : World) (h0 : SSHClient) :
  appends h0 (connect_event h0) (connect w).
Proof.
  intros s Hs. split.
  - destruct (connect_keeps_config w s) as [c ->].
    rewrite config_set_client. exact Hs.
  - destruct (connect_events w s) as (evs & He & Hf). exists evs.
    split; [exact He|]. eapply Forall_impl; [|exact Hf].
    intros ev. apply connect_event_config. exact Hs.
Qed.

Lemma close_appends (w : World) (h0 : SSHClient) :
  appends h0 (fun ev => match ev with
                        | CloseSession | Log _ _ => True
                        | _ => False
                        end) (close w).
Proof.
  intros s Hs. rewrite close_eval.
  destruct (client (self s)) eqn:Hc; simpl.
  - split; [exact Hs|]. eexists. split; [reflexivity|].
    unfold close_line. destruct (net_close w _); events_ok.
  - split; [exact Hs|]. exists []. rewrite app_nil_r. auto.
Qed.

Lemma run_command_appends (w : World) (h0 h : SSHClient) (command : string)
  (timeout : Z) :
  appends h0 (call_event h0 command timeout)
    (run_command w h command timeout).
Proof.
  unfold run_command, client_exec_command, decode, log.
  repeat first
    [ apply appends_get_self; intros ? _
    | apply appends_bind | apply appends_ret | apply appends_raise
    | apply appends_ask
    | apply appends_emit; simpl; auto
    | match goal with
      | |- forall _, appends _ _ _ => intro
      | |- appends _ _ (match ?x with _ => _ end) => destruct x
      end ].
Qed.

Lemma call_event_of_connect (h0 : SSHClient) (command : string)
  (timeout : Z) (ev : Event) :
  connect_event h0 ev -> call_event h0 command timeout ev.
Proof. destruct ev; simpl; auto; contradiction. Qed.

Lemma execute_command_appends (w : World) (h0 : SSHClient) (depth : nat)
  (command : string) (timeout : Z) :
  appends h0 (call_event h0 command timeout)
    (execute_command w depth command timeout).
Proof.
  assert (Hconnect : appends h0 (call_event h0 command timeout) (connect w)).
  { eapply appends_weaken; [|apply connect_appends].
    apply call_event_of_connect. }
  assert (Hclose : appends h0 (call_event h0 command timeout) (close w)).
  { eapply appends_weaken; [|apply close_appends].
    intros []; simpl; auto; contradiction. }
  induction depth as [|depth IH]; simpl.
  - apply appends_unfinished.
  - apply appends_get_self. intros h Hh.
    apply appends_bind.
    { destruct (disconnected_expr h); [exact Hconnect|apply appends_ret]. }
    intros _. apply appends_try_except; [apply run_command_appends|].
    intros e. destruct (isinstance_SSHException e).
    + apply appends_bind; [apply appends_emit; exact I|]. intros _.
      apply appends_raise.
    + apply appends_bind; [apply appends_emit; exact I|]. intros _.
      apply appends_bind; [exact Hclose|]. intros _.
      apply appends_bind; [exact Hconnect|]. intros _.
      exact IH.
Qed.

(** X1.  No method changes the configuration of the handle: host, user,
    password, key path and port are after [connect], [close],
    [execute_command], [__enter__] and [__exit__] what they were before,
    however the call ends. *)
Theorem X1_methods_keep_configuration (w : World) (s : State) :
  config (self (snd (connect w s))) = config (self s)
  /\ config (self (snd (close w s))) = config (self s)
  /\ (forall depth command timeout,
         config (self (snd (execute_command w depth command timeout s)))
         = config (self s))
  /\ config (self (snd (__enter__ w s))) = config (self s)
  /\ config (self (snd (__exit__ w s))) = config (self s).
Proof.
  assert (Hconnect : config (self (snd (connect w s))) = config (self s)).
  { apply (connect_appends w (self s) s eq_refl). }
  assert (Hclose : config (self (snd (close w s))) = config (self s)).
  { apply (close_appends w (self s) s eq_refl). }
  repeat split; auto.
  - intros depth command timeout.
    apply (execute_command_appends w (self s) depth command timeout s eq_refl).
  - unfold __enter__, bind, get_self.
    destruct (connect w s) as [[[]|e|] s1]; exact Hconnect.
Qed.

(** X2.  Whatever the world and the state, [connect] runs no command and
    closes no session, installs no host-key policy other than
    [AutoAddPolicy], reads no key file other than the handle's [key_path]
    and only when the password is not true, and calls the library's
    connect only with the handle's host, user and port, a timeout of 10 and
    exactly one credential: the password when it is true, else a key. *)
Theorem X2_connect_events (w : World) (s : State) :
  exists evs,
    history (snd (connect w s)) = history s ++ evs
    /\ Forall (connect_event (self s)) evs.
Proof. apply connect_events. Qed.

(** X3.  Whatever the world, the state and the number of retries, every
    command [execute_command command timeout] hands to the library is
    [command] itself with [timeout] itself, and every connection it opens
    on the way is one [connect] would open. *)
Theorem X3_execute_command_events (w : World) (depth : nat)
  (command : string) (timeout : Z) (s : State) :
  exists evs,
    history (snd (execute_command w depth command timeout s))
    = history s ++ evs
    /\ Forall (call_event (self s) command timeout) evs.
Proof.
  apply (execute_command_appends w (self s) depth command timeout s eq_refl).
Qed.

(** ** The depth granted to a call *)

(** More depth changes nothing for a call that ends within less. *)
Lemma execute_command_deeper (w : World) (command : string) (timeout : Z) :
  forall (depth : nat) (s : State) (r : Result (text * text * Z))
         (s' : State),
    execute_command w depth command timeout s = (r, s') ->
    r <> Unfinished ->
    execute_command w (S depth) command timeout s = (r, s').
Proof.
  induction depth as [|depth IH]; intros s r s' H Hr.
  - simpl in H. injection H as <- _. contradiction.
  - rewrite execute_command_step in H. rewrite execute_command_step.
    destruct (ensure_connected w s) as [[[]|e|] s1]; try exact H.
    destruct (run_command w (self s) command timeout s1) as [[a|e|] s2];
      try exact H.
    destruct (isinstance_SSHException e); [exact H|].
    rewrite retry_eval in H. rewrite retry_eval.
    destruct (connect w _) as [[[]|e'|] s3]; try exact H.
    apply IH; assumption.
Qed.

(** ** What [execute_command] returns *)

Lemma forallb_segment {A : Type} (f : A -> bool) (l m r : list A) :
  forallb f (l ++ m ++ r) = true -> forallb f m = true.
Proof.
  rewrite !forallb_app, !andb_true_iff. tauto.
Qed.

Lemma decoded_and_stripped (bs : list byte) (t : text) :
  decode_utf8 bs = Some t ->
  no_surrounding_space (strip t) /\ forallb scalar_value (strip t) = true.
Proof.
  intros Hd. destruct (strip_spec t) as (l & r & Ht & _ & _ & Hh & Hl).
  split; [split; assumption|].
  apply decode_utf8_scalar in Hd. rewrite Ht in Hd.
  apply (forallb_segment _ _ _ _ Hd).
Qed.

(** X5.  Whenever [execute_command] returns, after however many retries,
    the two texts of the triple neither start nor end with white space and
    consist of Unicode scalar values only. *)
Theorem X5_returned_texts_are_stripped (w : World) (command : string)
  (timeout : Z) (depth : nat) (s s' : State) (output error : text)
  (exit_status : Z) :
  execute_command w depth command timeout s
  = (Returns (output, error, exit_status), s') ->
  no_surrounding_space output
  /\ no_surrounding_space error
  /\ forallb scalar_value output = true
  /\ forallb scalar_value error = true.
Proof.
  revert s. induction depth as [|depth IH]; intros s H; [discriminate|].
  rewrite execute_command_step in H.
  destruct (ensure_connected w s) as [[[]|e0|] s1] eqn:E1; try discriminate.
  destruct (ensure_connected_returns _ _ _ E1) as ((c & Hc) & _).
  rewrite (run_command_eval w _ _ _ s1 c Hc) in H.
  assert (Hretry : forall s2,
            (close w ;; connect w ;; execute_command w depth command timeout)
              s2 = (Returns (output, error, exit_status), s') ->
            no_surrounding_space output /\ no_surrounding_space error
            /\ forallb scalar_value output = true
            /\ forallb scalar_value error = true).
  { intros s2 Hr. rewrite retry_eval in Hr.
    destruct (connect w _) as [[[]|e1|] s3]; try discriminate.
    apply (IH s3 Hr). }
  destruct (exec_command w _) as [out err st|e0].
  - destruct (decode_utf8 out) as [o|] eqn:Ho;
      [destruct (decode_utf8 err) as [e|] eqn:He|].
    + injection H as <- <- <- <-.
      destruct (decoded_and_stripped _ _ Ho), (decoded_and_stripped _ _ He).
      auto.
    + apply (Hretry _ H).
    + apply (Hretry _ H).
  - destruct (isinstance_SSHException e0); [discriminate|].
    apply (Hretry _ H).
Qed.

Lemma X5_returned_texts_are_stripped_witness :
  no_surrounding_space (text_of "ok")
  /\ no_surrounding_space []
  /\ forallb scalar_value (text_of "ok") = true
  /\ forallb scalar_value [] = true.
Proof.
  apply (X5_returned_texts_are_stripped w_ok "echo ok" 30%Z 1
           (fresh h_password)
           (snd (execute_command w_ok 1 "echo ok" 30 (fresh h_password)))
           (text_of "ok") [] 0%Z).
  reflexivity.
Defined.

(** X13.  A command that completes with nothing but ASCII on both streams
    is always returned: its bytes, stripped, are the two texts. *)
Theorem X13_ascii_output_is_returned (w : World) (depth : nat)
  (command : string) (timeout : Z) (s s1 : State) (out err : list byte)
  (exit_status : Z) :
  ensure_connected w s = (Returns tt, s1) ->
  exec_command w (history s1 ++ [ExecCommand command timeout])
  = Completed out err exit_status ->
  forallb is_ascii out = true ->
  forallb is_ascii err = true ->
  fst (execute_command w (S depth) command timeout s)
  = Returns (strip (map Byte.to_N out), strip (map Byte.to_N err),
             exit_status).
Proof.
  intros H1 Hx Ho He.
  rewrite (execute_command_completed w depth command timeout s s1 out err
             exit_status _ _ H1 Hx
             (decode_utf8_ascii out Ho) (decode_utf8_ascii err He)).
  reflexivity.
Qed.

Lemma X13_ascii_output_is_returned_witness :
  fst (execute_command w_ok 1 "echo ok" 30 (fresh h_password))
  = Returns (strip (map Byte.to_N (bytes_of "ok" ++ [x0a])),
             strip (map Byte.to_N []), 0%Z).
Proof.
  apply (X13_ascii_output_is_returned w_ok 0 "echo ok" 30%Z
           (fresh h_password)
           (snd (ensure_connected w_ok (fresh h_password)))
           (bytes_of "ok" ++ [x0a]) [] 0%Z);
    reflexivity.
Defined.

(** ** The session along [execute_command] *)

Lemma is_connected_true (h : SSHClient) :
  truthy (is_connected h) = true -> is_connected h = PyBool true.
Proof.
  destruct (is_connected h) as [[]|]; simpl; congruence.
Qed.

Lemma ensure_connected_live (w : World) (s : State) :
  truthy (is_connected (self s)) = true ->
  ensure_connected w s = (Returns tt, s).
Proof.
  intros Hl. unfold ensure_connected.
  rewrite disconnected_expr_connected_expr.
  unfold is_connected in Hl. rewrite Hl. reflexivity.
Qed.

Lemma recovery_appends (w : World) (h0 : SSHClient) (depth : nat)
  (command : string) (timeout : Z) :
  appends h0 (call_event h0 command timeout)
    (close w ;; connect w ;; execute_command w depth command timeout).
Proof.
  apply appends_bind.
  { eapply appends_weaken; [|apply close_appends].
    intros []; simpl; auto; contradiction. }
  intros _. apply appends_bind.
  { eapply appends_weaken; [|apply connect_appends].
    apply call_event_of_connect. }
  intros _. apply execute_command_appends.
Qed.

(** X6.  On a handle for which [is_connected] is true, [execute_command]
    does not connect before the first attempt: the first thing it does is
    to run the command on the session it has.  When that attempt completes
    with streams that decode, or raises a protocol error, nothing else
    reaches the library and the handle is left as it was; a session is
    closed or opened only on the way to a retry. *)
Theorem X6_connected_handle_runs_at_once (w : World) (depth : nat)
  (command : string) (timeout : Z) (s : State) :
  truthy (is_connected (self s)) = true ->
  (exists evs,
      history (snd (execute_command w (S depth) command timeout s))
      = history s ++ ExecCommand command timeout :: evs)
  /\ (forall out err exit_status o e,
         exec_command w (history s ++ [ExecCommand command timeout])
         = Completed out err exit_status ->
         decode_utf8 out = Some o ->
         decode_utf8 err = Some e ->
         execute_command w (S depth) command timeout s =
           (Returns (strip o, strip e, exit_status),
            mkState (self s)
              (history s
               ++ [ExecCommand command timeout;
                   command_line (self s) command exit_status])))
  /\ (forall e,
         exec_command w (history s ++ [ExecCommand command timeout])
         = ExecRaises e ->
         isinstance_SSHException e = true ->
         execute_command w (S depth) command timeout s =
           (Raises e,
            mkState (self s)
              (history s
               ++ [ExecCommand command timeout;
                   Log ERROR ("SSH error while executing command on "
                              ++ host (self s) ++ ": " ++ exn_str e)]))).
Proof.
  intros Hl. pose proof (ensure_connected_live w s Hl) as H1.
  pose proof Hl as Hl'.
  apply connected_expr_live in Hl' as (c & t & Hc & _).
  split; [|split].
  - rewrite execute_command_step, H1, (run_command_eval w _ _ _ s c Hc).
    assert (Hretry : forall e,
              exists evs,
                history
                  (snd ((close w ;; connect w ;;
                         execute_command w depth command timeout)
                          (mkState (self s)
                             ((history s ++ [ExecCommand command timeout])
                              ++ [retry_line (self s) e]))))
                = history s ++ ExecCommand command timeout :: evs).
    { intros e.
      destruct (recovery_appends w (self s) depth command timeout
                  (mkState (self s)
                     ((history s ++ [ExecCommand command timeout])
                      ++ [retry_line (self s) e])) eq_refl)
        as (_ & evs & -> & _).
      simpl. exists (retry_line (self s) e :: evs).
      flatten_history. reflexivity. }
    destruct (exec_command w _) as [out err st|e].
    + destruct (decode_utf8 out); [destruct (decode_utf8 err)|];
        simpl; eauto.
    + destruct (isinstance_SSHException e); simpl; eauto.
      eexists. flatten_history. reflexivity.
  - intros out err st o e Hx Ho He.
    apply (execute_command_completed w depth command timeout s s out err st
             o e H1 Hx Ho He).
  - intros e Hx He.
    rewrite execute_command_step, H1, (run_command_eval w _ _ _ s c Hc), Hx,
      He.
    unfold ssh_error_line. simpl. flatten_history. reflexivity.
Qed.

Lemma X6_connected_handle_runs_at_once_witness :
  (exists evs,
      history
        (snd (execute_command w_ok 1 "echo ok" 30
                (snd (connect w_ok (fresh h_password)))))
      = history (snd (connect w_ok (fresh h_password)))
        ++ ExecCommand "echo ok" 30 :: evs)
  /\ execute_command w_ok 1 "echo ok" 30
       (snd (connect w_ok (fresh h_password)))
     = (Returns (text_of "ok", [], 0%Z),
        mkState (self (snd (connect w_ok (fresh h_password))))
          (history (snd (connect w_ok (fresh h_password)))
           ++ [ExecCommand "echo ok" 30;
               Log INFO "Command executed successfully on h: echo ok"]))
  /\ execute_command w_broken_channel 1 "echo ok" 30
       (snd (connect w_broken_channel (fresh h_password)))
     = (Raises (mkExn SSHException "Channel closed."),
        mkState (self (snd (connect w_broken_channel (fresh h_password))))
          (history (snd (connect w_broken_channel (fresh h_password)))
           ++ [ExecCommand "echo ok" 30;
               Log ERROR
                 "SSH error while executing command on h: Channel closed."])).
Proof.
  split; [|split].
  - apply (proj1 (X6_connected_handle_runs_at_once w_ok 0 "echo ok" 30%Z
                    (snd (connect w_ok (fresh h_password))) eq_refl)).
  - apply (proj1 (proj2 (X6_connected_handle_runs_at_once w_ok 0 "echo ok"
                           30%Z (snd (connect w_ok (fresh h_password)))
                           eq_refl))
             (bytes_of "ok" ++ [x0a]) [] 0%Z (text_of "ok" ++ [10%N]) []);
      reflexivity.
  - apply (proj2 (proj2 (X6_connected_handle_runs_at_once w_broken_channel 0
                           "echo ok" 30%Z
                           (snd (connect w_broken_channel (fresh h_password)))
                           eq_refl))
             (mkExn SSHException "Channel closed."));
      reflexivity.
Defined.

Lemma connect_raises_session (w : World) (s s1 : State) (e : exn) :
  connect w s = (Raises e, s1) ->
  exists t, client (self s1) = Some (mkSession t).
Proof.
  connect_cases w s.
  - discriminate.
  - destruct (net_connect w _); [discriminate|]. intros [= _ <-].
    simpl. eauto.
  - destruct (from_private_key_file w _);
      [destruct (net_connect w _); [discriminate|]|];
      intros [= _ <-]; simpl; eauto.
  - intros [= _ <-]. simpl. eauto.
Qed.

Lemma run_command_raises_count (w : World) (h : SSHClient)
  (command : string) (timeout : Z) (s s2 : State) (c : Session) (e : exn) :
  client (self s) = Some c ->
  run_command w h command timeout s = (Raises e, s2) ->
  self s2 = self s
  /\ history s2 = history s ++ [ExecCommand command timeout].
Proof.
  intros Hc. rewrite (run_command_eval w _ _ _ s c Hc).
  destruct (exec_command w _) as [out err st|e0].
  - destruct (decode_utf8 out); [destruct (decode_utf8 err)|];
      try discriminate; intros [= _ <-]; auto.
  - intros [= _ <-]. auto.
Qed.

(** X7.  When the command attempt fails other than by a protocol error
    and the reconnect that follows raises, that second exception is what
    [execute_command] raises: the first one is only logged.  The command
    has then been attempted once, and the handle is left holding the
    session object of the failed reconnect. *)
Theorem X7_failed_reconnect_propagates (w : World) (depth : nat)
  (command : string) (timeout : Z) (s s1 s2 s3 : State) (e e' : exn) :
  ensure_connected w s = (Returns tt, s1) ->
  run_command w (self s) command timeout s1 = (Raises e, s2) ->
  isinstance_SSHException e = false ->
  connect w
    (snd (close w
            (mkState (self s2)
               (history s2
                ++ [Log ERROR ("Error executing command on "
                               ++ host (self s) ++ ": " ++ exn_str e)]))))
  = (Raises e', s3) ->
  execute_command w (S depth) command timeout s = (Raises e', s3)
  /\ count_exec (history s3) = S (count_exec (history s))
  /\ exists t, client (self s3) = Some (mkSession t).
Proof.
  intros H1 H2 He H3.
  destruct (ensure_connected_returns _ _ _ H1) as ((c & Hc) & _ & Hn1).
  destruct (run_command_raises_count _ _ _ _ _ _ _ _ Hc H2) as (_ & Hh2).
  repeat split.
  - rewrite execute_command_step, H1, H2, He, retry_eval.
    unfold retry_line. rewrite H3. reflexivity.
  - pose proof (connect_count_exec w
                  (snd (close w
                          (mkState (self s2)
                             (history s2
                              ++ [Log ERROR ("Error executing command on "
                                             ++ host (self s) ++ ": "
                                             ++ exn_str e)]))))) as Hn3.
    rewrite H3, close_count_exec in Hn3. simpl in Hn3.
    rewrite Hn3, Hh2. count_events.
  - apply (connect_raises_session _ _ _ _ H3).
Qed.

Lemma X7_failed_reconnect_propagates_witness :
  execute_command w_drops 2 "uptime" 30 (fresh h_password)
  = (Raises unreachable, after_failed_reconnect)
  /\ count_exec (history after_failed_reconnect) = 1
  /\ exists t, client (self after_failed_reconnect) = Some (mkSession t).
Proof.
  apply (X7_failed_reconnect_propagates w_drops 1 "uptime" 30%Z
           (fresh h_password)
           (snd (ensure_connected w_drops (fresh h_password)))
           (snd (run_command w_drops h_password "uptime" 30
                   (snd (ensure_connected w_drops (fresh h_password)))))
           after_failed_reconnect timed_out unreachable);
    reflexivity.
Defined.

(** ** A key file that cannot be read *)

(** X8.  When the password is not true and reading the key file raises,
    [connect] raises that exception after logging it and the library's
    connect is not called at all; the handle is left with a session object
    that has no transport. *)
Theorem X8_unreadable_key_never_connects (w : World) (s : State) (e : exn) :
  truthy (is_connected (self s)) = false ->
  truthy_str (password (self s)) = false ->
  truthy_str (key_path (self s)) = true ->
  from_private_key_file w
    (history s
     ++ [NewSession; SetMissingHostKeyPolicy AutoAddPolicy;
         FromPrivateKeyFile (key_path (self s))])
  = KeyRaises e ->
  connect w s =
    (Raises e,
     mkState (set_client (self s) (Some (mkSession None)))
       (history s
        ++ [NewSession; SetMissingHostKeyPolicy AutoAddPolicy;
            FromPrivateKeyFile (key_path (self s));
            Log ERROR (connect_error_line (self s) e)]))
  /\ count_connect (history (snd (connect w s))) = count_connect (history s).
Proof.
  intros Hl Hp Hk Hf. rewrite (connect_with_key w s Hl Hp Hk).
  unfold opening. simpl. rewrite Hf. split; [reflexivity|]. count_events.
Qed.

Lemma X8_unreadable_key_never_connects_witness :
  connect w_no_key (fresh h_key) =
    (Raises no_such_file,
     mkState (set_client h_key (Some (mkSession None)))
       [NewSession; SetMissingHostKeyPolicy AutoAddPolicy;
        FromPrivateKeyFile (Some "/root/.ssh/id_rsa");
        Log ERROR (connect_error_line h_key no_such_file)])
  /\ count_connect (history (snd (connect w_no_key (fresh h_key)))) = 0.
Proof.
  apply (X8_unreadable_key_never_connects w_no_key (fresh h_key)
           no_such_file);
    reflexivity.
Defined.

(** ** After a [connect] that returned *)

(** X9.  When [connect] returns, [is_connected] is the boolean [True].
    [__enter__] then returns the handle itself, connected; when [connect]
    raises, [__enter__] raises the same from the same state. *)
Theorem X9_connected_after_connect (w : World) (s : State) :
  (forall s1,
      connect w s = (Returns tt, s1) ->
      is_connected (self s1) = PyBool true)
  /\ (forall h s1,
         __enter__ w s = (Returns h, s1) ->
         connect w s = (Returns tt, s1)
         /\ h = self s1
         /\ is_connected h = PyBool true)
  /\ (forall e s1,
         __enter__ w s = (Raises e, s1) ->
         connect w s = (Raises e, s1)).
Proof.
  assert (Hc : forall s1, connect w s = (Returns tt, s1) ->
                          is_connected (self s1) = PyBool true).
  { intros s1 H1. apply is_connected_true.
    apply (connect_returns_live _ _ _ H1). }
  split; [exact Hc|]. unfold __enter__, bind, get_self.
  split.
  - intros h s1. destruct (connect w s) as [[[]|e|] s0] eqn:E;
      try discriminate.
    intros [= <- <-]. repeat split. apply Hc. reflexivity.
  - intros e s1. destruct (connect w s) as [[[]|e0|] s0]; try discriminate.
    intros [= <- <-]. reflexivity.
Qed.

Lemma X9_connected_after_connect_witness :
  is_connected (self (snd (connect w_ok (fresh h_key)))) = PyBool true.
Proof.
  apply (proj1 (X9_connected_after_connect w_ok (fresh h_key))).
  reflexivity.
Defined.

(** ** Counting attempts *)

Lemma count_close_app (l l' : list Event) :
  count_close (l ++ l') = count_close l + count_close l'.
Proof.
  induction l as [|ev l IH]; simpl; [reflexivity|].
  destruct ev; simpl; rewrite IH; reflexivity.
Qed.

Lemma count_close_connect_events (h : SSHClient) (evs : list Event) :
  Forall (connect_event h) evs -> count_close evs = 0.
Proof.
  induction 1 as [|ev evs Hev _ IH]; [reflexivity|].
  destruct ev; simpl in *; auto; contradiction.
Qed.

Lemma connect_count_close (w : World) (s : State) :
  count_close (history (snd (connect w s))) = count_close (history s).
Proof.
  destruct (connect_events w s) as (evs & -> & Hf).
  rewrite count_close_app, (count_close_connect_events _ _ Hf). lia.
Qed.

Lemma close_count_close (w : World) (s : State) (c : Session) :
  client (self s) = Some c ->
  count_close (history (snd (close w s))) = S (count_close (history s)).
Proof.
  intros Hc. rewrite close_eval, Hc. simpl. rewrite count_close_app.
  unfold close_line. destruct (net_close w _); simpl; lia.
Qed.

Lemma execute_command_balance (w : World) (command : string) (timeout : Z) :
  forall (depth : nat) (s s' : State) (r : text * text * Z),
    execute_command w depth command timeout s = (Returns r, s') ->
    count_exec (history s') + count_close (history s)
    = S (count_close (history s') + count_exec (history s)).
Proof.
  induction depth as [|depth IH]; intros s s' r H; [discriminate|].
  rewrite execute_command_step in H.
  destruct (ensure_connected w s) as [[[]|e0|] s1] eqn:E1; try discriminate.
  destruct (ensure_connected_returns _ _ _ E1) as ((c & Hc) & _ & Hn1).
  assert (Hk1 : count_close (history s1) = count_close (history s)).
  { revert E1. unfold ensure_connected.
    destruct (disconnected_expr (self s)).
    - intros E. pose proof (connect_count_close w s) as Hk.
      rewrite E in Hk. exact Hk.
    - intros [= <-]. reflexivity. }
  rewrite (run_command_eval w _ _ _ s1 c Hc) in H.
  assert (Hretry : forall line,
            (close w ;; connect w ;; execute_command w depth command timeout)
              (mkState (self s1)
                 ((history s1 ++ [ExecCommand command timeout])
                  ++ [Log ERROR line]))
            = (Returns r, s') ->
            count_exec (history s') + count_close (history s)
            = S (count_close (history s') + count_exec (history s))).
  { intros line Hr. rewrite retry_eval in Hr.
    set (s2 := mkState _ _) in Hr.
    pose proof (close_count_close w s2 c Hc) as Hk2.
    pose proof (close_count_exec w s2) as Hn2.
    pose proof (connect_count_close w (snd (close w s2))) as Hk3.
    pose proof (connect_count_exec w (snd (close w s2))) as Hn3.
    destruct (connect w (snd (close w s2))) as [[[]|e1|] s3];
      try discriminate.
    specialize (IH s3 s' r Hr). simpl in Hk3, Hn3.
    subst s2. simpl in Hk2, Hn2.
    rewrite !count_close_app in Hk2. rewrite !count_exec_app in Hn2.
    simpl in Hk2, Hn2. lia. }
  destruct (exec_command w _) as [out err st|e0].
  - destruct (decode_utf8 out) as [o|];
      [destruct (decode_utf8 err) as [e|]|].
    + injection H as _ <-. simpl.
      rewrite count_exec_app, count_close_app. unfold command_line.
      destruct (st =? 0)%Z; simpl; lia.
    + apply (Hretry _ H).
    + apply (Hretry _ H).
  - destruct (isinstance_SSHException e0); [discriminate|].
    apply (Hretry _ H).
Qed.

(** X10.  In a call of [execute_command] that returns, the command was
    handed to the library once more than a session was closed: every
    attempt but the last one failed and was followed by exactly one
    [close] of the session it ran on. *)
Theorem X10_attempts_and_closes (w : World) (depth : nat) (command : string)
  (timeout : Z) (s s' : State) (r : text * text * Z) :
  execute_command w depth command timeout s = (Returns r, s') ->
  exists evs,
    history s' = history s ++ evs
    /\ count_exec evs = S (count_close evs).
Proof.
  intros H. pose proof (execute_command_balance w command timeout _ _ _ _ H)
    as Hb.
  destruct (execute_command_appends w (self s) depth command timeout s
              eq_refl) as (_ & evs & He & _).
  rewrite H in He. simpl in He. exists evs. split; [exact He|].
  rewrite He, count_exec_app, count_close_app in Hb. lia.
Qed.

Lemma X10_attempts_and_closes_witness :
  exists evs,
    history after_two_retries = history (fresh h_password) ++ evs
    /\ count_exec evs = S (count_close evs).
Proof.
  apply (X10_attempts_and_closes (w_flaky 2) 3 "uptime" 30%Z
           (fresh h_password) after_two_retries (text_of "ok", [], 0%Z)).
  reflexivity.
Defined.

(** ** The handle as a context manager *)

Lemma with_statement_eval {A : Type} (w : World) (body : Py A) (s : State)
  (h : SSHClient) (s1 : State) :
  __enter__ w s = (Returns h, s1) ->
  with_statement w body s =
    match body s1 with
    | (Returns a, s2) => (Returns a, snd (close w s2))
    | (Raises e, s2) => (Raises e, snd (close w s2))
    | (Unfinished, s2) => (Unfinished, s2)
    end.
Proof.
  intros He. unfold with_statement, bind at 1. rewrite He.
  destruct (body s1) as [[a|e|] s2]; try reflexivity;
    unfold __exit__, bind; rewrite close_eval;
    destruct (client (self s2)); reflexivity.
Qed.

(** X11.  In [with handle: body], when [__enter__] returns and the body
    returns or raises, the block returns or raises what the body did and
    the handle is disconnected afterwards: its session is cleared and
    [is_connected] is [False].  When [__enter__] raises, the block raises
    the same; the body is not run and nothing is closed, so the session
    object of the failed [connect] stays in the handle. *)
Theorem X11_with_statement_releases {A : Type} (w : World) (body : Py A)
  (s : State) :
  (forall h s1,
      __enter__ w s = (Returns h, s1) ->
      fst (body s1) <> Unfinished ->
      fst (with_statement w body s) = fst (body s1)
      /\ client (self (snd (with_statement w body s))) = None
      /\ is_connected (self (snd (with_statement w body s))) = PyBool false)
  /\ (forall e s1,
         __enter__ w s = (Raises e, s1) ->
         with_statement w body s = (Raises e, s1)
         /\ count_close (history s1) = count_close (history s)
         /\ exists t, client (self s1) = Some (mkSession t)).
Proof.
  split.
  - intros h s1 He Hb. rewrite (with_statement_eval w body s h s1 He).
    assert (Hclosed : forall s2,
              client (self (snd (close w s2))) = None
              /\ is_connected (self (snd (close w s2))) = PyBool false).
    { intros s2. unfold is_connected, connected_expr.
      rewrite close_keeps_config. simpl. auto. }
    destruct (body s1) as [[a|e|] s2]; simpl in *;
      [| |contradiction]; (split; [reflexivity|apply Hclosed]).
  - intros e s1 He. unfold with_statement, bind at 1. rewrite He.
    split; [reflexivity|].
    assert (Hc : connect w s = (Raises e, s1)).
    { revert He. unfold __enter__, bind, get_self.
      destruct (connect w s) as [[[]|e0|] s0]; try discriminate.
      intros [= <- <-]. reflexivity. }
    split.
    + pose proof (connect_count_close w s) as Hk. rewrite Hc in Hk.
      exact Hk.
    + apply (connect_raises_session _ _ _ _ Hc).
Qed.

Lemma X11_with_statement_releases_witness :
  (fst (with_statement w_ok (execute_command w_ok 1 "echo ok" 30)
          (fresh h_password))
   = fst (execute_command w_ok 1 "echo ok" 30
            (snd (__enter__ w_ok (fresh h_password))))
   /\ client
        (self (snd (with_statement w_ok
                      (execute_command w_ok 1 "echo ok" 30)
                      (fresh h_password)))) = None
   /\ is_connected
        (self (snd (with_statement w_ok
                      (execute_command w_ok 1 "echo ok" 30)
                      (fresh h_password)))) = PyBool false)
  /\ (with_statement w_rejects (execute_command w_rejects 1 "echo ok" 30)
        (fresh h_password)
      = (Raises bad_password, snd (__enter__ w_rejects (fresh h_password)))
      /\ count_close
           (history (snd (__enter__ w_rejects (fresh h_password))))
         = count_close (history (fresh h_password))
      /\ exists t,
           client (self (snd (__enter__ w_rejects (fresh h_password))))
           = Some (mkSession t)).
Proof.
  split.
  - apply (proj1 (X11_with_statement_releases w_ok
                    (execute_command w_ok 1 "echo ok" 30)
                    (fresh h_password))
             (set_client h_password (Some live_session))
             (snd (__enter__ w_ok (fresh h_password)))).
    + reflexivity.
    + discriminate.
  - apply (proj2 (X11_with_statement_releases w_rejects
                    (execute_command w_rejects 1 "echo ok" 30)
                    (fresh h_password))
             bad_password (snd (__enter__ w_rejects (fresh h_password)))).
    reflexivity.
Defined.

(** ** Sessions that are not reused *)

(** X12.  When [is_connected] is not true, be it that no session is
    stored or that the stored one has no active transport, [connect]
    creates a new session object and sets its policy before anything else,
    and it does not close the session it replaces.  In particular a
    [connect] after [close] always opens a new session. *)
Theorem X12_connect_replaces_without_closing (w : World) (s : State) :
  (truthy (is_connected (self s)) = false ->
   exists evs,
     history (snd (connect w s))
     = history s
       ++ NewSession :: SetMissingHostKeyPolicy AutoAddPolicy :: evs
     /\ count_close evs = 0)
  /\ (exists evs,
         history (snd (connect w (snd (close w s))))
         = history (snd (close w s))
           ++ NewSession :: SetMissingHostKeyPolicy AutoAddPolicy :: evs).
Proof.
  assert (Hnew : forall s0,
            truthy (is_connected (self s0)) = false ->
            exists evs,
              history (snd (connect w s0))
              = history s0
                ++ NewSession :: SetMissingHostKeyPolicy AutoAddPolicy :: evs
              /\ count_close evs = 0).
  { intros s0 Hl. unfold is_connected in Hl.
    destruct (truthy_str (password (self s0))) eqn:Hp.
    - rewrite (connect_with_password w s0 Hl Hp). unfold opening.
      destruct (net_connect w _); simpl; eexists; split; reflexivity.
    - destruct (truthy_str (key_path (self s0))) eqn:Hk.
      + rewrite (connect_with_key w s0 Hl Hp Hk). unfold opening.
        destruct (from_private_key_file w _);
          [destruct (net_connect w _)|]; simpl; eexists; split; reflexivity.
      + rewrite (connect_without_credentials w s0 Hl Hp Hk). unfold opening.
        simpl. eexists; split; reflexivity. }
  split; [apply Hnew|].
  destruct (Hnew (snd (close w s))) as (evs & He & _).
  - rewrite close_keeps_config. reflexivity.
  - eauto.
Qed.

Lemma X12_connect_replaces_without_closing_witness :
  exists evs,
    history (snd (connect w_ok (snd (connect w_rejects (fresh h_password)))))
    = history (snd (connect w_rejects (fresh h_password)))
      ++ NewSession :: SetMissingHostKeyPolicy AutoAddPolicy :: evs
    /\ count_close evs = 0.
Proof.
  apply (proj1 (X12_connect_replaces_without_closing w_ok
                  (snd (connect w_rejects (fresh h_password))))).
  reflexivity.
Defined.

(** ** Empty credentials *)

(** X14.  An empty string counts as no credential.  With an empty
    password [connect] does what it does with no password at all, the same
    calls with the same outcome; with an empty key path it does what it
    does with no key path. *)
Theorem X14_empty_credentials_count_as_absent (w : World) (h : SSHClient)
  (hist : list Event) :
  (password h = Some "" ->
   fst (connect w (mkState h hist))
   = fst (connect w (mkState (set_password h None) hist))
   /\ history (snd (connect w (mkState h hist)))
      = history (snd (connect w (mkState (set_password h None) hist))))
  /\ (key_path h = Some "" ->
      fst (connect w (mkState h hist))
      = fst (connect w (mkState (set_key_path h None) hist))
      /\ history (snd (connect w (mkState h hist)))
         = history (snd (connect w (mkState (set_key_path h None) hist)))).
Proof.
  split.
  - intros Hp.
    destruct (truthy (connected_expr h)) eqn:Hl.
    + rewrite !connect_reuse by exact Hl. split; reflexivity.
    + destruct (truthy_str (key_path h)) eqn:Hk.
      * rewrite (connect_with_key w (mkState h hist) Hl)
          by (simpl; rewrite ?Hp; auto).
        rewrite (connect_with_key w (mkState (set_password h None) hist) Hl)
          by (simpl; auto).
        simpl. unfold pkey_args, connect_error_line. simpl.
        destruct (from_private_key_file w _);
          [destruct (net_connect w _)|]; split; reflexivity.
      * rewrite (connect_without_credentials w (mkState h hist) Hl)
          by (simpl; rewrite ?Hp; auto).
        rewrite (connect_without_credentials w
                   (mkState (set_password h None) hist) Hl)
          by (simpl; auto).
        split; reflexivity.
  - intros Hk.
    destruct (truthy (connected_expr h)) eqn:Hl.
    + rewrite !connect_reuse by exact Hl. split; reflexivity.
    + destruct (truthy_str (password h)) eqn:Hp.
      * rewrite (connect_with_password w (mkState h hist) Hl Hp).
        rewrite (connect_with_password w
                   (mkState (set_key_path h None) hist) Hl Hp).
        simpl. unfold password_args, connect_error_line. simpl.
        destruct (net_connect w _); split; reflexivity.
      * rewrite (connect_without_credentials w (mkState h hist) Hl Hp)
          by (simpl; rewrite ?Hk; auto).
        rewrite (connect_without_credentials w
                   (mkState (set_key_path h None) hist) Hl Hp)
          by (simpl; auto).
        split; reflexivity.
Qed.

Lemma X14_empty_credentials_count_as_absent_witness :
  (fst (connect w_ok (mkState h_empty_password []))
   = fst (connect w_ok (mkState (set_password h_empty_password None) []))
   /\ history (snd (connect w_ok (mkState h_empty_password [])))
      = history
          (snd (connect w_ok
                  (mkState (set_password h_empty_password None) []))))
  /\ (fst (connect w_ok (mkState h_empty_both []))
      = fst (connect w_ok (mkState (set_key_path h_empty_both None) []))
      /\ history (snd (connect w_ok (mkState h_empty_both [])))
         = history
             (snd (connect w_ok
                     (mkState (set_key_path h_empty_both None) [])))).
Proof.
  split.
  - apply (proj1 (X14_empty_credentials_count_as_absent w_ok
                    h_empty_password [])).
    reflexivity.
  - apply (proj2 (X14_empty_credentials_count_as_absent w_ok
                    h_empty_both [])).
    reflexivity.
Defined.

(** ** A handle without credentials *)

(** X15.  On a handle built from the constructor with neither a password
    nor a key path, [execute_command] raises the [ValueError] of [connect]
    whatever the command: the command is never handed to the library and
    the library's connect is never called. *)
Theorem X15_no_credentials_no_command (w : World) (s : State) (depth : nat)
  (command : string) (timeout : Z) :
  reachable w s ->
  truthy_str (password (self s)) = false ->
  truthy_str (key_path (self s)) = false ->
  fst (execute_command w (S depth) command timeout s) = Raises no_credentials
  /\ count_exec (history (snd (execute_command w (S depth) command timeout s)))
     = count_exec (history s)
  /\ count_connect
       (history (snd (execute_command w (S depth) command timeout s)))
     = count_connect (history s).
Proof.
  intros Hr Hp Hk.
  pose proof (reachable_credentials w s Hr Hp Hk) as Hl.
  assert (Hd : disconnected_expr (self s) = true).
  { rewrite disconnected_expr_connected_expr, Hl. reflexivity. }
  rewrite execute_command_step, (ensure_connected_connect w s Hd).
  rewrite (connect_without_credentials w s Hl Hp Hk).
  repeat split; count_events.
Qed.

Lemma X15_no_credentials_no_command_witness :
  fst (execute_command w_ok 3 "uptime" 30 (fresh h_neither))
  = Raises no_credentials
  /\ count_exec
       (history (snd (execute_command w_ok 3 "uptime" 30 (fresh h_neither))))
     = count_exec (history (fresh h_neither))
  /\ count_connect
       (history (snd (execute_command w_ok 3 "uptime" 30 (fresh h_neither))))
     = count_connect (history (fresh h_neither)).
Proof.
  apply (X15_no_credentials_no_command w_ok (fresh h_neither) 2 "uptime"
           30%Z (reach_init w_ok "h" "u" None None 22));
    reflexivity.
Defined.

(** ** The message of a decoding error *)

Lemma option_map_none {A B : Type} (f : A -> B) (x : option A) :
  option_map f x = None <-> x = None.
Proof. destruct x; simpl; split; congruence. Qed.

(** The decoder fails exactly on the byte strings in which the error scan
    finds an error. *)
Lemma utf8_error_agrees :
  forall (n : nat) (bs : list byte) (pos : nat),
    List.length bs <= n ->
    (decode_utf8 bs = None <-> utf8_error pos bs <> None).
Proof.
  induction n as [|n IH]; intros bs pos Hlen.
  - destruct bs; [|simpl in Hlen; lia]. simpl. split; congruence.
  - destruct bs as [|b0 r0]; [simpl; split; congruence|].
    cbn [decode_utf8 utf8_error]. simpl in Hlen.
    destruct (Byte.to_N b0 <? 0x80)%N.
    { rewrite option_map_none. apply IH. lia. }
    destruct (between 0xC2 0xDF b0).
    { destruct r0 as [|b1 r1]; [split; congruence|]. simpl in Hlen.
      destruct (continuation b1); [|split; congruence].
      rewrite option_map_none. apply IH. lia. }
    destruct (between 0xE0 0xEF b0).
    { destruct r0 as [|b1 [|b2 r2]]; simpl in Hlen.
      - split; congruence.
      - destruct (second_of_three b0 b1); simpl; split; congruence.
      - destruct (second_of_three b0 b1); simpl; [|split; congruence].
        destruct (continuation b2); simpl; [|split; congruence].
        rewrite option_map_none. apply IH. lia. }
    destruct (between 0xF0 0xF4 b0); [|split; congruence].
    destruct r0 as [|b1 [|b2 [|b3 r3]]]; simpl in Hlen.
    + split; congruence.
    + destruct (second_of_four b0 b1); simpl; split; congruence.
    + destruct (second_of_four b0 b1); simpl; [|split; congruence].
      destruct (continuation b2); simpl; split; congruence.
    + destruct (second_of_four b0 b1); simpl; [|split; congruence].
      destruct (continuation b2); simpl; [|split; congruence].
      destruct (continuation b3); simpl; [|split; congruence].
      rewrite option_map_none. apply IH. lia.
Qed.

Example decode_error_messages :
  exn_str (decode_error [xff])
  = "'utf-8' codec can't decode byte 0xff in position 0: invalid start byte"
  /\ exn_str (decode_error (bytes_of "ab" ++ [xe2; x82]))
     = "'utf-8' codec can't decode bytes in position 2-3: unexpected end of data"
  /\ exn_str (decode_error [xe2; x82; x28])
     = "'utf-8' codec can't decode bytes in position 0-1: invalid continuation byte"
  /\ exn_str (decode_error [xed; xa0; x80])
     = "'utf-8' codec can't decode byte 0xed in position 0: invalid continuation byte".
Proof. repeat split. Qed.

(** ** Recovery after a failed attempt *)

Lemma connect_opens_when_disconnected (w : World) (s : State) :
  truthy (connected_expr (self s)) = false ->
  exists evs,
    history (snd (connect w s))
    = history s ++ NewSession :: SetMissingHostKeyPolicy AutoAddPolicy :: evs.
Proof.
  intros Hl. destruct (truthy_str (password (self s))) eqn:Hp.
  - rewrite (connect_with_password w s Hl Hp). unfold opening.
    destruct (net_connect w _); simpl; eexists; reflexivity.
  - destruct (truthy_str (key_path (self s))) eqn:Hk.
    + rewrite (connect_with_key w s Hl Hp Hk). unfold opening.
      destruct (from_private_key_file w _);
        [destruct (net_connect w _)|]; simpl; eexists; reflexivity.
    + rewrite (connect_without_credentials w s Hl Hp Hk). unfold opening.
      simpl. eexists; reflexivity.
Qed.

(** A [connect] that returns has called the library's connect once, unless
    it reused the session. *)
Lemma connect_returns_count_connect (w : World) (s s1 : State) :
  connect w s = (Returns tt, s1) ->
  count_connect (history s1)
  = count_connect (history s)
    + (if truthy (connected_expr (self s)) then 0 else 1).
Proof.
  connect_cases w s.
  - intros [= <-]. count_events.
  - destruct (net_connect w _); intros [= <-]. count_events.
  - destruct (from_private_key_file w _); [|discriminate].
    destruct (net_connect w _); intros [= <-]. count_events.
  - discriminate.
Qed.

Lemma close_count_connect (w : World) (s : State) :
  count_connect (history (snd (close w s))) = count_connect (history s).
Proof.
  rewrite close_eval. destruct (client (self s)); [|reflexivity].
  unfold close_line. destruct (net_close w _); count_events.
Qed.

(** The recovery path, step by step. *)
Lemma recovery_eval (w : World) (depth : nat) (command : string)
  (timeout : Z) (s s1 s2 : State) (e : exn) :
  ensure_connected w s = (Returns tt, s1) ->
  run_command w (self s) command timeout s1 = (Raises e, s2) ->
  isinstance_SSHException e = false ->
  execute_command w (S depth) command timeout s =
    match connect w (after_recovery_close w (self s) s1 command timeout e)
    with
    | (Returns _, s3) => execute_command w depth command timeout s3
    | (Raises e', s3) => (Raises e', s3)
    | (Unfinished, s3) => (Unfinished, s3)
    end.
Proof.
  intros H1 H2 He.
  destruct (ensure_connected_returns _ _ _ H1) as ((c & Hc) & (c' & Hk) & _).
  destruct (run_command_raises_count _ _ _ _ _ _ _ _ Hc H2) as (Hs2 & Hh2).
  rewrite execute_command_step, H1, H2, He, retry_eval.
  assert (Hclosed :
            snd (close w
                   (mkState (self s2)
                      (history s2 ++ [retry_line (self s) e])))
            = after_recovery_close w (self s) s1 command timeout e).
  { rewrite close_eval. simpl. rewrite Hs2, Hc, Hh2.
    unfold after_recovery_close, retry_line, close_line. simpl.
    rewrite Hk. simpl. flatten_history. reflexivity. }
  rewrite Hclosed. reflexivity.
Qed.

(** In a call that returns, the library connected once for every session
    that was closed, and once more when the call had to connect first. *)
Lemma execute_command_connect_balance (w : World) (command : string)
  (timeout : Z) :
  forall (depth : nat) (s s' : State) (r : text * text * Z),
    execute_command w depth command timeout s = (Returns r, s') ->
    count_connect (history s') + count_close (history s)
    = count_connect (history s) + count_close (history s')
      + (if disconnected_expr (self s) then 1 else 0).
Proof.
  induction depth as [|depth IH]; intros s s' r H; [discriminate|].
  rewrite execute_command_step in H.
  destruct (ensure_connected w s) as [[[]|e0|] s1] eqn:E1; try discriminate.
  destruct (ensure_connected_returns _ _ _ E1) as ((c & Hc) & _ & _).
  assert (Hk1 : count_close (history s1) = count_close (history s)
                /\ count_connect (history s1)
                   = count_connect (history s)
                     + (if disconnected_expr (self s) then 1 else 0)).
  { revert E1. unfold ensure_connected.
    rewrite disconnected_expr_connected_expr.
    destruct (truthy (connected_expr (self s))) eqn:Hl; simpl.
    - intros [= <-]. split; lia.
    - intros E. pose proof (connect_count_close w s) as Hk.
      pose proof (connect_returns_count_connect _ _ _ E) as Hn.
      rewrite E in Hk. rewrite Hl in Hn. auto. }
  destruct Hk1 as [Hk1 Hn1].
  rewrite (run_command_eval w _ _ _ s1 c Hc) in H.
  assert (Hretry : forall line,
            (close w ;; connect w ;; execute_command w depth command timeout)
              (mkState (self s1)
                 ((history s1 ++ [ExecCommand command timeout])
                  ++ [Log ERROR line]))
            = (Returns r, s') ->
            count_connect (history s') + count_close (history s)
            = count_connect (history s) + count_close (history s')
              + (if disconnected_expr (self s) then 1 else 0)).
  { intros line Hr. rewrite retry_eval in Hr.
    set (s2 := mkState _ _) in Hr.
    pose proof (close_count_close w s2 c Hc) as Hk2.
    pose proof (close_count_connect w s2) as Hn2.
    pose proof (connect_count_close w (snd (close w s2))) as Hk3.
    assert (Hd3 : disconnected_expr (self (snd (close w s2))) = true).
    { rewrite close_keeps_config. reflexivity. }
    destruct (connect w (snd (close w s2))) as [[[]|e1|] s3] eqn:E3;
      try discriminate.
    pose proof (connect_returns_live _ _ _ E3) as Hl3.
    pose proof (connect_returns_count_connect _ _ _ E3) as Hn3.
    rewrite disconnected_expr_connected_expr in Hd3.
    apply negb_true_iff in Hd3. rewrite Hd3 in Hn3.
    specialize (IH s3 s' r Hr).
    rewrite disconnected_expr_connected_expr, Hl3 in IH. simpl in IH.
    simpl in Hk3. subst s2. simpl in Hk2, Hn2.
    rewrite !count_close_app in Hk2. rewrite !count_connect_app in Hn2.
    simpl in Hk2, Hn2. lia. }
  destruct (exec_command w _) as [out err st|e0].
  - destruct (decode_utf8 out) as [o|];
      [destruct (decode_utf8 err) as [e|]|].
    + injection H as _ <-. simpl.
      rewrite count_connect_app, count_close_app. unfold command_line.
      destruct (st =? 0)%Z; simpl; lia.
    + apply (Hretry _ H).
    + apply (Hretry _ H).
  - destruct (isinstance_SSHException e0); [discriminate|].
    apply (Hretry _ H).
Qed.

Section PersistentCloses.

Variable w : World.
Hypothesis Hconnects : always_connects w.

(** Where no attempt gets through, every level also closes its session. *)
Lemma never_returns_closes (command : string) (timeout : Z) :
  always_fails_softly w ->
  forall (depth : nat) (s : State),
    truthy_str (password (self s)) = true ->
    count_close (history (snd (execute_command w depth command timeout s)))
    = count_close (history s) + depth.
Proof.
  intros Hsoft. induction depth as [|depth IH]; intros s Hp.
  - simpl. lia.
  - rewrite execute_command_step.
    destruct (ensure_connected_always_returns w Hconnects s Hp)
      as (s1 & c & E1 & Hc & Hp1 & _).
    assert (Hk1 : count_close (history s1) = count_close (history s)).
    { revert E1. unfold ensure_connected.
      destruct (disconnected_expr (self s)).
      - intros E. pose proof (connect_count_close w s) as Hk.
        rewrite E in Hk. exact Hk.
      - intros [= <-]. reflexivity. }
    rewrite E1, (run_command_eval w _ _ _ s1 c Hc).
    assert (Hretry : forall e0,
      count_close
        (history
           (snd ((close w ;; connect w ;;
                  execute_command w depth command timeout)
                   (mkState (self s1)
                      ((history s1 ++ [ExecCommand command timeout])
                       ++ [retry_line (self s) e0])))))
      = count_close (history s) + S depth).
    { intros e0. rewrite retry_eval. set (s2 := mkState _ _).
      assert (Hp2 : truthy_str (password (self (snd (close w s2)))) = true).
      { rewrite close_keeps_config. simpl. congruence. }
      pose proof (close_count_close w s2 c Hc) as Hk2.
      pose proof (connect_count_close w (snd (close w s2))) as Hk3.
      destruct (connect_always_returns w Hconnects _ Hp2)
        as (s3 & E3 & Hp3 & _).
      rewrite E3 in Hk3. rewrite E3.
      assert (Hp3' : truthy_str (password (self s3)) = true) by congruence.
      rewrite (IH s3 Hp3'). simpl in Hk3. subst s2. simpl in Hk2.
      rewrite !count_close_app in Hk2. simpl in Hk2. lia. }
    specialize (Hsoft (history s1 ++ [ExecCommand command timeout])).
    destruct (exec_command w _) as [out err st|e].
    + rewrite Hsoft. apply Hretry.
    + rewrite Hsoft. apply Hretry.
Qed.

End PersistentCloses.

(** C1, counterexample.  The first attempt times out, which is no
    protocol error, and the host cannot be reached again.  The call has
    room for a retry but makes none: the reconnect raises, that exception
    is the result, and the command has been handed to the library once. *)
Lemma C1_counterexample_reconnect_fails :
  fst (run_command w_drops h_password "uptime" 30
         (snd (ensure_connected w_drops (fresh h_password))))
  = Raises timed_out
  /\ isinstance_SSHException timed_out = false
  /\ execute_command w_drops 2 "uptime" 30 (fresh h_password)
     = (Raises unreachable, after_failed_reconnect)
  /\ count_exec (history after_failed_reconnect) = 1
  /\ count_close (history after_failed_reconnect) = 1.
Proof. repeat split. Qed.

(** C1, as amended.  When the body of the [try] raises an exception that
    is not a protocol error, [execute_command] logs it, has the library
    close the session, logs the outcome, clears the session handle and
    calls [connect], which starts a new session.  If that [connect]
    returns, the call goes on as [execute_command] with the same command
    and the same timeout from the state reached; if it raises, the call
    raises that exception and the command is not tried again.  When the
    body raises a protocol error, the error is logged and raised again
    and nothing else is done.  Nothing counts the retries, only the
    recursion depth granted to the call bounds them: for every [n] there
    is a world in which a call granted depth [n + 1] makes [n] failed
    attempts, closes [n] sessions, connects [n + 1] times and returns on
    attempt [n + 1], while no smaller depth is enough; and in a world
    where every attempt fails a call granted any depth uses it up, with
    one attempt and one close per level. *)
Theorem C1_execute_command_retries_without_bound :
  (forall (w : World) (depth : nat) (command : string) (timeout : Z)
          (s s1 s2 : State) (e : exn),
      ensure_connected w s = (Returns tt, s1) ->
      run_command w (self s) command timeout s1 = (Raises e, s2) ->
      isinstance_SSHException e = false ->
      execute_command w (S depth) command timeout s =
        match connect w (after_recovery_close w (self s) s1 command timeout e)
        with
        | (Returns _, s3) => execute_command w depth command timeout s3
        | (Raises e', s3) => (Raises e', s3)
        | (Unfinished, s3) => (Unfinished, s3)
        end
      /\ exists evs,
           history
             (snd (connect w
                     (after_recovery_close w (self s) s1 command timeout e)))
           = history (after_recovery_close w (self s) s1 command timeout e)
             ++ NewSession :: SetMissingHostKeyPolicy AutoAddPolicy :: evs)
  /\ (forall (w : World) (depth : nat) (command : string) (timeout : Z)
             (s s1 s2 : State) (e : exn),
         ensure_connected w s = (Returns tt, s1) ->
         run_command w (self s) command timeout s1 = (Raises e, s2) ->
         isinstance_SSHException e = true ->
         execute_command w (S depth) command timeout s =
           (Raises e,
            mkState (self s1)
              (history s1
               ++ [ExecCommand command timeout;
                   Log ERROR ("SSH error while executing command on "
                              ++ host (self s) ++ ": " ++ exn_str e)])))
  /\ (forall (n : nat) (command : string) (timeout : Z),
         (exists s',
             execute_command (w_flaky n) (S n) command timeout
               (fresh h_password)
             = (Returns (text_of "ok", [], 0%Z), s')
             /\ count_exec (history s') = S n
             /\ count_close (history s') = n
             /\ count_connect (history s') = S n)
         /\ (forall depth,
                depth <= n ->
                fst (execute_command (w_flaky n) depth command timeout
                       (fresh h_password)) = Unfinished))
  /\ (forall (depth : nat) (command : string) (timeout : Z),
         fst (execute_command w_down depth command timeout (fresh h_password))
         = Unfinished
         /\ count_exec
              (history (snd (execute_command w_down depth command timeout
                               (fresh h_password)))) = depth
         /\ count_close
              (history (snd (execute_command w_down depth command timeout
                               (fresh h_password)))) = depth).
Proof.
  split; [|split; [|split]].
  - intros w depth command timeout s s1 s2 e H1 H2 He. split.
    + apply (recovery_eval w depth command timeout s s1 s2 e H1 H2 He).
    + apply connect_opens_when_disconnected. reflexivity.
  - intros w depth command timeout s s1 s2 e H1 H2 He.
    destruct (ensure_connected_returns _ _ _ H1) as ((c & Hc) & _ & _).
    destruct (run_command_raises_count _ _ _ _ _ _ _ _ Hc H2) as (Hs2 & Hh2).
    rewrite execute_command_step, H1, H2, He, Hs2, Hh2.
    unfold ssh_error_line. flatten_history. reflexivity.
  - intros n command timeout. split.
    + destruct (w_flaky_returns n command timeout n (fresh h_password)
                  eq_refl eq_refl) as (s' & Hr & Hn).
      exists s'. split; [exact Hr|]. split; [exact Hn|].
      pose proof (execute_command_balance _ _ _ _ _ _ _ Hr) as Hb.
      pose proof (execute_command_connect_balance _ _ _ _ _ _ _ Hr) as Hc.
      simpl in Hb, Hc. lia.
    + intros depth Hle.
      apply (w_flaky_needs_depth n command timeout depth (fresh h_password));
        [reflexivity|simpl; lia].
  - intros depth command timeout.
    destruct (never_returns w_down (fun _ => eq_refl) command timeout
                (fun _ => eq_refl) depth (fresh h_password) eq_refl)
      as [Hu Hn].
    pose proof (never_returns_closes w_down (fun _ => eq_refl) command
                  timeout (fun _ => eq_refl) depth (fresh h_password)
                  eq_refl) as Hk.
    auto.
Qed.

Lemma C1_execute_command_retries_without_bound_witness :
  (execute_command (w_flaky 1) 2 "uptime" 30 (fresh h_password) =
     match
       connect (w_flaky 1)
         (after_recovery_close (w_flaky 1) (self (fresh h_password))
            (snd (ensure_connected (w_flaky 1) (fresh h_password)))
            "uptime" 30 timed_out)
     with
     | (Returns _, s3) => execute_command (w_flaky 1) 1 "uptime" 30 s3
     | (Raises e', s3) => (Raises e', s3)
     | (Unfinished, s3) => (Unfinished, s3)
     end
   /\ exists evs,
        history
          (snd (connect (w_flaky 1)
                  (after_recovery_close (w_flaky 1) (self (fresh h_password))
                     (snd (ensure_connected (w_flaky 1) (fresh h_password)))
                     "uptime" 30 timed_out)))
        = history
            (after_recovery_close (w_flaky 1) (self (fresh h_password))
               (snd (ensure_connected (w_flaky 1) (fresh h_password)))
               "uptime" 30 timed_out)
          ++ NewSession :: SetMissingHostKeyPolicy AutoAddPolicy :: evs)
  /\ execute_command w_broken_channel 2 "uptime" 30 (fresh h_password) =
       (Raises (mkExn SSHException "Channel closed."),
        mkState (set_client h_password (Some live_session))
          [NewSession; SetMissingHostKeyPolicy AutoAddPolicy;
           Connect (mkConnectArgs "h" "u" (Some "p") None 22 10);
           Log INFO "Successfully connected to h on port 22";
           ExecCommand "uptime" 30;
           Log ERROR
             "SSH error while executing command on h: Channel closed."])
  /\ fst (execute_command (w_flaky 3) 2 "uptime" 30 (fresh h_password))
     = Unfinished.
Proof.
  split; [|split].
  - apply (proj1 C1_execute_command_retries_without_bound (w_flaky 1) 1
             "uptime" 30%Z (fresh h_password)
             (snd (ensure_connected (w_flaky 1) (fresh h_password)))
             (snd (run_command (w_flaky 1) h_password "uptime" 30
                     (snd (ensure_connected (w_flaky 1) (fresh h_password)))))
             timed_out);
      reflexivity.
  - apply (proj1 (proj2 C1_execute_command_retries_without_bound)
             w_broken_channel 1 "uptime" 30%Z (fresh h_password)
             (snd (ensure_connected w_broken_channel (fresh h_password)))
             (snd (run_command w_broken_channel h_password "uptime" 30
                     (snd (ensure_connected w_broken_channel
                             (fresh h_password)))))
             (mkExn SSHException "Channel closed."));
      reflexivity.
  - apply (proj2 (proj1 (proj2 (proj2
             C1_execute_command_retries_without_bound)) 3 "uptime" 30%Z) 2).
    repeat constructor.
Defined.
